(** * iso2god-rs GUI: watcher, admission queue, process supervisor, upload

    A shallow embedding of the orchestration core of [gui.py]:
    - [IsoHandler.on_created] and [DirectoryWatcher.check_directory]
      (debounced admission into the queue),
    - [Iso2GodGUI.clear_queue], [Iso2GodGUI.process_queue] and the
      [finally] block of [Iso2GodGUI.process_iso] (the coordinator),
    - the retry loop of [Iso2GodGUI.process_iso] with [is_legacy_version]
      (the process supervisor and its legacy shim),
    - [Iso2GodGUI.send_over_ftp] and [Iso2GodGUI.upload_folder].

    Python [str] values are modelled as [string] (ASCII), the in-flight set
    [IsoHandler.processing] as a [gset string], the dictionaries
    [last_event_time] and [_last_check] as [gmap string Q], clock readings
    and durations as rationals. *)

From Stdlib Require Import String Ascii List ZArith QArith Lia Lqa Bool.
From stdpp Require Import gmap strings list.
Import ListNotations.

Local Open Scope string_scope.
Local Open Scope list_scope.

(** ** Python string primitives used by the source *)

Module Py.

Definition is_ascii_digit (c : ascii) : bool :=
  let n := nat_of_ascii c in (48 <=? n)%nat && (n <=? 57)%nat.

Fixpoint all_digits (s : string) : bool :=
  match s with
  | EmptyString => true
  | String c s' => is_ascii_digit c && all_digits s'
  end.

(** [str.isdigit]: at least one character, all of them digits. *)
Definition isdigit (s : string) : bool :=
  match s with
  | EmptyString => false
  | String _ _ => all_digits s
  end.

Definition digit_value (c : ascii) : Z := Z.of_nat (nat_of_ascii c) - 48.

Fixpoint int_acc (acc : Z) (s : string) : Z :=
  match s with
  | EmptyString => acc
  | String c s' => int_acc (acc * 10 + digit_value c) s'
  end.

(** [int(s)] on a string of decimal digits. *)
Definition int (s : string) : Z := int_acc 0 s.

Definition lower_char (c : ascii) : ascii :=
  let n := nat_of_ascii c in
  if (65 <=? n)%nat && (n <=? 90)%nat then ascii_of_nat (n + 32) else c.

(** [str.lower] *)
Fixpoint lower (s : string) : string :=
  match s with
  | EmptyString => EmptyString
  | String c s' => String (lower_char c) (lower s')
  end.

(** [str.startswith] *)
Fixpoint startswith (s p : string) : bool :=
  match p, s with
  | EmptyString, _ => true
  | String a p', String b s' => Ascii.eqb a b && startswith s' p'
  | String _ _, EmptyString => false
  end.

(** [str.endswith]: some suffix of [s] is [suf]. *)
Fixpoint endswith (s suf : string) : bool :=
  String.eqb s suf ||
  match s with
  | EmptyString => false
  | String _ s' => endswith s' suf
  end.

(** [sub in s] *)
Fixpoint contains (sub s : string) : bool :=
  startswith s sub ||
  match s with
  | EmptyString => false
  | String _ s' => contains sub s'
  end.

Definition is_space (c : ascii) : bool :=
  let n := nat_of_ascii c in
  ((9 <=? n)%nat && (n <=? 13)%nat) || ((28 <=? n)%nat && (n <=? 32)%nat).

Fixpoint lstrip (s : string) : string :=
  match s with
  | EmptyString => EmptyString
  | String c s' => if is_space c then lstrip s' else s
  end.

Fixpoint rstrip (s : string) : string :=
  match s with
  | EmptyString => EmptyString
  | String c s' =>
      match rstrip s' with
      | EmptyString => if is_space c then EmptyString else String c EmptyString
      | r => String c r
      end
  end.

(** [str.strip] *)
Definition strip (s : string) : string := rstrip (lstrip s).

(** [str.split(sep)] for a one-character separator. *)
Fixpoint split (sep : ascii) (s : string) : list string :=
  match s with
  | EmptyString => [EmptyString]
  | String c s' =>
      if Ascii.eqb c sep then EmptyString :: split sep s'
      else match split sep s' with
           | h :: t => String c h :: t
           | [] => [String c EmptyString]
           end
  end.

(** Comparison [<=] of two tuples of integers (lexicographic). *)
Fixpoint tuple_le (a b : list Z) : bool :=
  match a, b with
  | [], _ => true
  | _ :: _, [] => false
  | x :: a', y :: b' => if (x =? y)%Z then tuple_le a' b' else (x <? y)%Z
  end.

(** [os.path.join] of a directory and an entry name, with "/" for the
    separator: the case of a directory that is not empty and does not end
    in a separator, and of a name that does not start with one. (After a
    directory that ends in a separator the source adds none.) *)
Definition path_join (dir name : string) : string := dir +:+ "/" +:+ name.

(** [os.path.basename]: what follows the last separator. *)
Fixpoint basename (p : string) : string :=
  match p with
  | EmptyString => EmptyString
  | String c p' =>
      if contains "/" p' || Ascii.eqb c "/" then basename p' else p
  end.

Fixpoint all_dots (s : string) : bool :=
  match s with
  | EmptyString => true
  | String c s' => Ascii.eqb c "." && all_dots s'
  end.

(** [os.path.splitext(name)[0]] for a name without separators: the name
    up to its last dot, unless nothing but dots precede that dot. *)
Fixpoint splitext_root_aux (seen s : string) : string :=
  match s with
  | EmptyString => EmptyString
  | String c s' =>
      if Ascii.eqb c "." && negb (contains "." s') then
        (if all_dots seen then s else EmptyString)
      else String c (splitext_root_aux (String c seen) s')
  end.

Definition splitext_root (name : string) : string :=
  splitext_root_aux EmptyString name.

End Py.

(** ** The legacy shim: [is_legacy_version] *)

(** The longest run of digits at the head of [s], and what follows it:
    how a greedy [\d+] consumes its input. *)
Fixpoint span_digits (s : string) : string * string :=
  match s with
  | EmptyString => (EmptyString, EmptyString)
  | String c s' =>
      if Py.is_ascii_digit c then
        let (d, r) := span_digits s' in (String c d, r)
      else (EmptyString, s)
  end.

(** Match [\d+\.\d+\.\d+] at the head of [s]; the result is the matched
    text. A digit run is followed by a dot in the pattern, so the greedy
    run never has to give characters back. *)
Definition match_triple (s : string) : option string :=
  let (d1, r1) := span_digits s in
  match d1, r1 with
  | String _ _, String "." r1' =>
      let (d2, r2) := span_digits r1' in
      match d2, r2 with
      | String _ _, String "." r2' =>
          let (d3, _) := span_digits r2' in
          match d3 with
          | String _ _ => Some (d1 +:+ "." +:+ d2 +:+ "." +:+ d3)
          | EmptyString => None
          end
      | _, _ => None
      end
  | _, _ => None
  end.

(** [re.search(r'-(\d+\.\d+\.\d+)', binary_name)]: group 1 of the
    leftmost match. *)
Fixpoint re_search_version (binary_name : string) : option string :=
  match binary_name with
  | EmptyString => None
  | String c rest =>
      if Ascii.eqb c "-" then
        match match_triple rest with
        | Some version => Some version
        | None => re_search_version rest
        end
      else re_search_version rest
  end.

Definition is_legacy_version (binary_name : string) : bool :=
  match re_search_version binary_name with
  | Some version =>
      let version_tuple := map Py.int (Py.split "." version) in
      Py.tuple_le version_tuple [1; 6; 0]%Z
  | None => false
  end.

(** ** The process supervisor: one attempt of [process_iso] *)

(** Settings read from the control surface. [process_timeout] is the entry
    after [float(...)]: [None] stands for the [ValueError] branch. The
    source reads the entries again at every attempt; here they keep their
    values for the length of a job. *)
Record config := {
  ISO2GOD_DIR : string;
  selected_iso2god : string;
  output_path : string;
  trim_var : bool;
  thread_count : string;
  process_timeout : option Q;
  delete_iso_var : bool;
  use_ftp : bool
}.

Inductive exn := PermissionError | OtherException.

(** What the outside world does during one iteration of the retry loop. *)
Record attempt_env := {
  open_result : option exn;      (* [open(iso_path, 'rb')] *)
  spawn_result : option exn;     (* [subprocess.Popen(cmd, ...)] *)
  stdout_lines : list string;
  stderr_lines : list string;
  polls : list Q;                (* seconds since the start of the attempt
                                    at each turn of the wait loop, that is
                                    while [process.poll()] is [None] *)
  alive_after_terminate : bool;  (* [process.poll() is None] after terminate *)
  return_code : Z;
  still_processing : bool;       (* [self.is_processing] on success *)
  remove_result : option exn     (* [os.remove(iso_path)] *)
}.

Inductive severity := Found | Success | Error | Info.

Inductive message :=
| MsgFound | MsgNoBinary | MsgBinaryNotFound
| MsgLockedRetry (attempt : nat) | MsgLockedSkip
| MsgInvalidTimeout | MsgStarting | MsgTimedOut | MsgLegacyRetry
| MsgConverted | MsgDeleted | MsgDeleteError | MsgNotDeletedStopped | MsgKept
| MsgFailedRetry (rc : Z) (attempt : nat) | MsgFailedSkip (rc : Z)
| MsgAccessRetry (attempt : nat) | MsgAccessSkip | MsgUnexpected
| MsgFtpYes | MsgFtpError | MsgFtpNo | MsgReady.

(** The observable steps of a job, in program order. Two kinds of status
    line are left out of the trace. The lines the two reader threads
    forward are written by other threads, so their place among the steps
    depends on scheduling. The elapsed-time line of the wait loop is
    written by the job's own thread, between the spawn and the end of the
    wait, but whether it is written and what it says depend on
    [last_output], which the reader of the output stream sets. Every other
    step of the job's own thread is in the trace. *)
Inductive action :=
| SetTitle (title : string)
| Status (m : message) (sev : severity)
| Sleep (seconds : Q)
| OpenCheck (path : string)
| Popen (cmd : list string)
| Terminate
| Kill
| Remove (path : string)
| DiscardInflight (path : string)
| TaskDone
| SendOverFtp.

Inductive outcome :=
| NoBinarySelected | BinaryNotFound
| Converted | LockedOut | AccessErrorExhausted
| FailedExhausted (rc : Z) | TimedOut | UnexpectedError | LoopExhausted.

Inductive verdict := Retry | Return (o : outcome).

Definition max_retries : nat := 3.
Definition retry_delay : Q := 120.

Definition Qlt_bool (a b : Q) : bool := negb (Qle_bool b a).

(** [read_output(pipe, is_error)] over the lines of one pipe: whether the
    legacy marker was seen, the lines handed to the status sink, and
    whether the thread died on a [PermissionError]. The exception is raised
    in the reader thread and ends that thread only. *)
Fixpoint read_output (legacy_mode is_error : bool) (pipe : list string)
  : bool * list string * bool :=
  match pipe with
  | [] => (false, [], false)
  | raw :: rest =>
      let line := Py.strip raw in
      if String.eqb line "" then read_output legacy_mode is_error rest
      else
        let hit := is_error && legacy_mode
                   && Py.contains "unexpected argument '-j' found" line in
        if is_error && (Py.contains "process cannot access the file" line
                        || Py.contains "being used by another process" line)
        then (hit, [], true)
        else
          let '(seen, forwarded, died) := read_output legacy_mode is_error rest in
          (hit || seen, line :: forwarded, died)
  end.

Definition unexpected_j (legacy_mode : bool) (e : attempt_env) : bool :=
  fst (fst (read_output legacy_mode true (stderr_lines e))).

(** [add_j = thread_count.isdigit() and not legacy_mode] *)
Definition add_j (cfg : config) (legacy_mode : bool) : bool :=
  Py.isdigit (thread_count cfg) && negb legacy_mode.

Definition thread_flag (cfg : config) (legacy_mode : bool) : list string :=
  if add_j cfg legacy_mode then ["-j"; thread_count cfg] else [].

Definition build_cmd (cfg : config) (iso_path : string) (legacy_mode : bool)
  : list string :=
  [Py.path_join (ISO2GOD_DIR cfg) (selected_iso2god cfg); iso_path; output_path cfg]
  ++ (if trim_var cfg then ["--trim"] else [])
  ++ thread_flag cfg legacy_mode.

(** [timeout_seconds = timeout_minutes * 60 if timeout_minutes > 0 else None] *)
Definition timeout_seconds (cfg : config) : option Q :=
  match process_timeout cfg with
  | Some timeout_minutes =>
      if Qlt_bool 0 timeout_minutes then Some (timeout_minutes * 60)%Q else None
  | None => None
  end.

(** The test of the wait loop,
    [timeout_seconds and current_time - conversion_start_time > timeout_seconds],
    at some turn of the loop. *)
Definition timed_out (limit : option Q) (elapsed : list Q) : bool :=
  match limit with
  | Some t => negb (Qeq_bool t 0) && existsb (fun d => Qlt_bool t d) elapsed
  | None => false
  end.

(** The handler [except PermissionError as e] of the retry loop, also the
    shape of the handler around the accessibility check. *)
Definition on_permission_error (current_try : nat) (retry_msg skip_msg : message)
  (o : outcome) : list action * verdict :=
  if (current_try <? max_retries - 1)%nat
  then ([Status retry_msg Error; Sleep retry_delay], Retry)
  else ([Status skip_msg Error], Return o).

Definition on_success (cfg : config) (iso_path : string) (e : attempt_env)
  : list action :=
  Status MsgConverted Success ::
  if delete_iso_var cfg && still_processing e then
    Remove iso_path ::
    match remove_result e with
    | None => [Status MsgDeleted Success]
    | Some _ => [Status MsgDeleteError Error]
    end
  else if delete_iso_var cfg && negb (still_processing e) then
    [Status MsgNotDeletedStopped Info]
  else [Status MsgKept Info].

Definition prepend (pre : list action) (r : list action * verdict)
  : list action * verdict :=
  (pre ++ fst r, snd r).

(** What an attempt does once the input file could be opened, up to and
    including the spawn. *)
Definition attempt_start (cfg : config) (iso_path : string) (legacy_mode : bool)
  : list action :=
  [OpenCheck iso_path]
  ++ (match process_timeout cfg with
      | None => [Status MsgInvalidTimeout Error]
      | Some _ => []
      end)
  ++ [Status MsgStarting Info; Popen (build_cmd cfg iso_path legacy_mode)].

(** One turn of [while current_try < max_retries]. [Retry] means the turn
    ended with [current_try += 1]; [Return] that [process_iso] returned. *)
Definition attempt (cfg : config) (iso_path : string) (legacy_mode : bool)
  (current_try : nat) (e : attempt_env) : list action * verdict :=
  match open_result e with
  | Some PermissionError =>
      prepend [OpenCheck iso_path]
        (on_permission_error current_try (MsgLockedRetry (current_try + 1))
           MsgLockedSkip LockedOut)
  | Some OtherException =>
      ([OpenCheck iso_path; Status MsgUnexpected Error], Return UnexpectedError)
  | None =>
      let pre := attempt_start cfg iso_path legacy_mode in
      match spawn_result e with
      | Some PermissionError =>
          prepend pre
            (on_permission_error current_try (MsgAccessRetry (current_try + 1))
               MsgAccessSkip AccessErrorExhausted)
      | Some OtherException =>
          (pre ++ [Status MsgUnexpected Error], Return UnexpectedError)
      | None =>
          if timed_out (timeout_seconds cfg) (polls e) then
            (pre ++ [Terminate; Sleep 1]
                 ++ (if alive_after_terminate e then [Kill] else [])
                 ++ [Status MsgTimedOut Error],
             Return TimedOut)
          else if legacy_mode && unexpected_j legacy_mode e && add_j cfg legacy_mode then
            (pre ++ [Status MsgLegacyRetry Error], Retry)
          else if (return_code e =? 0)%Z then
            (pre ++ on_success cfg iso_path e, Return Converted)
          else if (current_try <? max_retries - 1)%nat then
            (pre ++ [Status (MsgFailedRetry (return_code e) (current_try + 1)) Error;
                     Sleep retry_delay],
             Retry)
          else
            (pre ++ [Status (MsgFailedSkip (return_code e)) Error],
             Return (FailedExhausted (return_code e)))
      end
  end.

(** The retry loop. [remaining] is [max_retries - current_try]: the loop
    test [current_try < max_retries] is [remaining > 0], and every turn
    that does not return adds one to [current_try]. *)
Fixpoint retry_loop (remaining : nat) (cfg : config) (iso_path : string)
  (legacy_mode : bool) (current_try : nat) (env : nat -> attempt_env)
  : list action * outcome :=
  match remaining with
  | O => ([], LoopExhausted)
  | S remaining' =>
      match attempt cfg iso_path legacy_mode current_try (env current_try) with
      | (acts, Return o) => (acts, o)
      | (acts, Retry) =>
          let (more, o) :=
            retry_loop remaining' cfg iso_path legacy_mode (S current_try) env in
          (acts ++ more, o)
      end
  end.

(** What one job meets: whether the selected binary exists on disk, the
    environment of each attempt (indexed by [current_try]) and whether the
    upload raises. *)
Record job_env := {
  binary_exists : bool;
  attempts : nat -> attempt_env;
  ftp_raises : bool
}.

(** The [try] part of [process_iso]. *)
Definition process_iso_body (cfg : config) (iso_path : string) (je : job_env)
  : list action * outcome :=
  let filename := Py.basename iso_path in
  let game_title := Py.splitext_root filename in
  let pre := [SetTitle game_title; Status MsgFound Found] in
  let iso2god_binary := selected_iso2god cfg in
  if String.eqb iso2god_binary "" then
    (pre ++ [Status MsgNoBinary Error], NoBinarySelected)
  else if negb (binary_exists je) then
    (pre ++ [Status MsgBinaryNotFound Error], BinaryNotFound)
  else
    let legacy_mode := is_legacy_version iso2god_binary in
    let (acts, o) := retry_loop max_retries cfg iso_path legacy_mode 0 (attempts je) in
    (pre ++ acts, o).

(** The [finally] part of [process_iso]. *)
Definition process_iso_finally (cfg : config) (iso_path : string)
  (current_index total_count : Z) (je : job_env) : list action :=
  [SetTitle "None"; DiscardInflight iso_path; TaskDone]
  ++ (if use_ftp cfg then
        if (current_index =? total_count)%Z then
          [Status MsgFtpYes Info; SendOverFtp]
          ++ (if ftp_raises je then [Status MsgFtpError Info] else [])
        else []
      else [Status MsgFtpNo Info])
  ++ [Status MsgReady Info].

Definition process_iso (cfg : config) (iso_path : string)
  (current_index total_count : Z) (je : job_env) : list action * outcome :=
  let (acts, o) := process_iso_body cfg iso_path je in
  (acts ++ process_iso_finally cfg iso_path current_index total_count je, o).

(** ** The watcher and the admission queue *)

Record event := { is_directory : bool; src_path : string }.

(** [FileCreatedEvent(filepath)] *)
Definition FileCreatedEvent (filepath : string) : event :=
  {| is_directory := false; src_path := filepath |}.

Record IsoHandler := {
  extensions : list string;
  processing : gset string;
  last_event_time : gmap string Q;
  scan_delay : Q
}.

(** [IsoHandler.__init__] *)
Definition IsoHandler_init : IsoHandler :=
  {| extensions := [".iso"]; processing := ∅; last_event_time := ∅;
     scan_delay := 2 |}.

(** [IsoHandler.set_scan_delay(delay)]; [None] is a delay that [float]
    rejects. *)
Definition set_scan_delay (delay : option Q) (h : IsoHandler) : IsoHandler :=
  {| extensions := extensions h; processing := processing h;
     last_event_time := last_event_time h;
     scan_delay := match delay with Some d => d | None => 2 end |}.

Record DirectoryWatcher := { path : string; _last_check : gmap string Q }.

(** Everything the watcher thread, the coordinator thread and the control
    surface share. [current_job] is the path [process_iso] is working on,
    between [iso_queue.get] and the end of its [finally] block. *)
Record system := {
  iso_queue : list string;
  handler : IsoHandler;
  watcher : DirectoryWatcher;
  is_processing : bool;
  current_job : option string;
  game_title_var : string;
  tasks_done : nat
}.

Definition set_queue (q : list string) (s : system) : system :=
  {| iso_queue := q; handler := handler s; watcher := watcher s;
     is_processing := is_processing s; current_job := current_job s;
     game_title_var := game_title_var s; tasks_done := tasks_done s |}.

Definition set_handler (h : IsoHandler) (s : system) : system :=
  {| iso_queue := iso_queue s; handler := h; watcher := watcher s;
     is_processing := is_processing s; current_job := current_job s;
     game_title_var := game_title_var s; tasks_done := tasks_done s |}.

Definition set_watcher (w : DirectoryWatcher) (s : system) : system :=
  {| iso_queue := iso_queue s; handler := handler s; watcher := w;
     is_processing := is_processing s; current_job := current_job s;
     game_title_var := game_title_var s; tasks_done := tasks_done s |}.

Definition set_is_processing (b : bool) (s : system) : system :=
  {| iso_queue := iso_queue s; handler := handler s; watcher := watcher s;
     is_processing := b; current_job := current_job s;
     game_title_var := game_title_var s; tasks_done := tasks_done s |}.

Definition set_current_job (c : option string) (s : system) : system :=
  {| iso_queue := iso_queue s; handler := handler s; watcher := watcher s;
     is_processing := is_processing s; current_job := c;
     game_title_var := game_title_var s; tasks_done := tasks_done s |}.

Definition set_title (t : string) (s : system) : system :=
  {| iso_queue := iso_queue s; handler := handler s; watcher := watcher s;
     is_processing := is_processing s; current_job := current_job s;
     game_title_var := t; tasks_done := tasks_done s |}.

Definition count_task_done (s : system) : system :=
  {| iso_queue := iso_queue s; handler := handler s; watcher := watcher s;
     is_processing := is_processing s; current_job := current_job s;
     game_title_var := game_title_var s; tasks_done := S (tasks_done s) |}.

Definition set_processing (ps : gset string) (h : IsoHandler) : IsoHandler :=
  {| extensions := extensions h; processing := ps;
     last_event_time := last_event_time h; scan_delay := scan_delay h |}.

Definition set_last_event_time (m : gmap string Q) (h : IsoHandler) : IsoHandler :=
  {| extensions := extensions h; processing := processing h;
     last_event_time := m; scan_delay := scan_delay h |}.

(** [str.endswith(tuple)] *)
Definition endswith_any (s : string) (sufs : list string) : bool :=
  existsb (Py.endswith s) sufs.

(** The debounce test of [on_created]: the path has a recorded time and
    less than [scan_delay] has passed since. *)
Definition debounced (h : IsoHandler) (p : string) (current_time : Q) : bool :=
  match last_event_time h !! p with
  | Some t => Qlt_bool (current_time - t) (scan_delay h)
  | None => false
  end.

(** The guard of [on_created]:
    [not event.is_directory and event.src_path.lower().endswith(self.extensions)] *)
Definition watched_event (h : IsoHandler) (ev : event) : bool :=
  negb (is_directory ev) && endswith_any (Py.lower (src_path ev)) (extensions h).

(** [IsoHandler.on_created(event)], with the reading of [time.time()]. *)
Definition on_created (ev : event) (current_time : Q) (s : system) : system :=
  let h := handler s in
  let p := src_path ev in
  if watched_event h ev then
    if debounced h p current_time then s
    else
      let h1 := set_last_event_time (<[p := current_time]> (last_event_time h)) h in
      if decide (p ∈ processing h1) then set_handler h1 s
      else
        set_handler (set_processing ({[p]} ∪ processing h1) h1)
          (set_queue (iso_queue s ++ [p]) s)
  else s.

(** One entry of the listing in [check_directory]. *)
Definition check_entry (s : system) (entry : string * Q) : system :=
  let (file, current_time) := entry in
  if Py.endswith (Py.lower file) ".iso" then
    let w := watcher s in
    let filepath := Py.path_join (path w) file in
    match _last_check w !! filepath with
    | Some _ => s
    | None =>
        on_created (FileCreatedEvent filepath) current_time
          (set_watcher {| path := path w;
                          _last_check := <[filepath := current_time]> (_last_check w) |} s)
    end
  else s.

Definition current_files (dir : string) (listing : list (string * Q)) : gset string :=
  list_to_set
    (map (fun e => Py.path_join dir (fst e))
       (List.filter (fun e => Py.endswith (Py.lower (fst e)) ".iso") listing)).

(** [DirectoryWatcher.check_directory]. The listing pairs each name of
    [os.listdir] with the clock reading taken while it is handled; [None]
    is a listing that raised, which is printed and skipped. *)
Definition check_directory (listing : option (list (string * Q))) (s : system)
  : system :=
  match listing with
  | None => s
  | Some entries =>
      let s1 := fold_left check_entry entries s in
      let w := watcher s1 in
      let present := current_files (path w) entries in
      set_watcher {| path := path w;
                     _last_check := filter (fun kv => kv.1 ∈ present) (_last_check w) |} s1
  end.

(** [Iso2GodGUI.clear_queue] *)
Definition clear_queue (s : system) : system := set_queue [] s.

(** [Iso2GodGUI.toggle_watching] when no watcher runs and both directories
    are valid: a new handler on the same queue, a new watcher. [delay] is
    the scan delay entry after [float(...)], [None] if that raised. *)
Definition start_watching (watch_dir : string) (delay : option Q) (s : system)
  : system :=
  set_is_processing true
    (set_watcher {| path := watch_dir; _last_check := ∅ |}
       (set_handler (set_scan_delay delay IsoHandler_init) s)).

(** [Iso2GodGUI.stop_watching] *)
Definition stop_watching (s : system) : system := set_is_processing false s.

(** [Iso2GodGUI.__init__]: an empty queue, nothing watched yet. The source
    has no handler at this point; the one here is never read before
    [start_watching] replaces it. *)
Definition initial_system : system :=
  {| iso_queue := []; handler := IsoHandler_init;
     watcher := {| path := ""; _last_check := ∅ |};
     is_processing := false; current_job := None;
     game_title_var := "None"; tasks_done := 0 |}.

(** ** The coordinator *)

(** The effect of one step of a job on the shared state. *)
Definition run_action (s : system) (a : action) : system :=
  match a with
  | SetTitle t => set_title t s
  | DiscardInflight p =>
      if decide (p ∈ processing (handler s))
      then set_handler (set_processing (processing (handler s) ∖ {[p]}) (handler s)) s
      else s
  | TaskDone => count_task_done s
  | _ => s
  end.

Definition exec (acts : list action) (s : system) : system :=
  fold_left run_action acts s.

(** [iso_queue.get]: the head of the queue becomes the current job. *)
Definition get (s : system) : option (string * system) :=
  match iso_queue s with
  | [] => None
  | iso_path :: rest => Some (iso_path, set_current_job (Some iso_path) (set_queue rest s))
  end.

(** One turn of the loop of [process_queue] with nothing else running in
    between: the two readings of [qsize()], the [get], and [process_iso]. *)
Definition process_queue_turn (cfg : config) (je : job_env) (s : system)
  : system * list action :=
  if is_processing s then
    let total_count := Z.of_nat (length (iso_queue s)) in
    if (total_count =? 0)%Z then (s, [])
    else
      let current_index := (total_count - Z.of_nat (length (iso_queue s)) + 1)%Z in
      match get s with
      | None => (s, [])
      | Some (iso_path, s1) =>
          let acts := fst (process_iso cfg iso_path current_index total_count je) in
          (set_current_job None (exec acts s1), acts)
      end
  else (s, []).

(** The coordinator left alone with the queue: one turn per job
    environment, the traces of the turns in order. *)
Fixpoint drain (cfg : config) (jes : list job_env) (s : system)
  : system * list (list action) :=
  match jes with
  | [] => (s, [])
  | je :: jes' =>
      let (s1, acts) := process_queue_turn cfg je s in
      let (s2, rest) := drain cfg jes' s1 in
      (s2, acts :: rest)
  end.

(** What can happen to the shared state while one handler lives. *)
Inductive step : system -> system -> Prop :=
| step_poll listing s :
    step s (check_directory listing s)
| step_created ev current_time s :
    step s (on_created ev current_time s)
| step_get iso_path s1 s :
    current_job s = None -> get s = Some (iso_path, s1) ->
    step s s1
| step_job cfg iso_path current_index total_count je s :
    current_job s = Some iso_path ->
    step s (set_current_job None
              (exec (fst (process_iso cfg iso_path current_index total_count je)) s))
| step_clear s :
    step s (clear_queue s)
| step_stop s :
    step s (stop_watching s).

(** The same with the control surface starting a new watcher. *)
Inductive step_restart : system -> system -> Prop :=
| restart_step s s' : step s s' -> step_restart s s'
| restart_start watch_dir delay s :
    step_restart s (start_watching watch_dir delay s).

Inductive steps {A} (R : A -> A -> Prop) : A -> A -> Prop :=
| steps_refl s : steps R s s
| steps_next s1 s2 s3 : steps R s1 s2 -> R s2 s3 -> steps R s1 s3.

(** Number of jobs for [p] that are queued or being processed. *)
Definition jobs_for (p : string) (s : system) : nat :=
  count_occ string_dec (iso_queue s) p
  + (if decide (current_job s = Some p) then 1 else 0).

(** ** The upload stage *)

(** The entries of the control surface the upload reads. *)
Record ftp_settings := {
  ftp_ip : string;
  ftp_port : string;
  ftp_user : string;
  ftp_pass : string;
  drv_field : string
}.

(** A local directory as [os.listdir] and [os.path.isdir] show it: the
    names in listing order, each a plain file ([None]) or a directory
    with its own listing. *)
#[warnings="-register-all"]
Inductive dir_tree :=
| Listing (entries : list (string * option dir_tree)).

(** Calls made on the session object [ftp]. *)
Inductive ftp_call :=
| Connect (host : string) (port : Z)
| Login (user passwd : string)
| Mkd (dirname : string)
| Cwd (dirname : string)
| Storbinary (local_path remote_name : string)
| Say (text : string).

(** Calls made so far, and whether an exception is on its way up. *)
Definition ftp_run : Type := list ftp_call * bool.

(** A call that propagates what the server raises. *)
Definition call (raises : ftp_call -> bool) (c : ftp_call) : ftp_run :=
  ([c], raises c).

(** A call inside [try: ... except: pass]. *)
Definition call_swallowed (c : ftp_call) : ftp_run := ([c], false).

Definition and_then (a : ftp_run) (b : ftp_run) : ftp_run :=
  if snd a then a else (fst a ++ fst b, snd b).

(** [upload_folder(local_dir, remote_dir)], where [tree] is what is found
    under [local_dir]; [upload_items] is the loop over [os.listdir]. *)
Fixpoint upload_folder (raises : ftp_call -> bool) (local_dir : string)
  (tree : dir_tree) (remote_dir : string) {struct tree} : ftp_run :=
  match tree with
  | Listing entries =>
      let upload_items :=
        fix upload_items (l : list (string * option dir_tree)) : ftp_run :=
          match l with
          | [] => ([Say "FTP Transfer Complete!"], false)
          | (item, None) :: l' =>
              and_then (call raises (Storbinary (Py.path_join local_dir item) item))
                       (upload_items l')
          | (item, Some sub) :: l' =>
              and_then (upload_folder raises (Py.path_join local_dir item) sub item)
                (and_then (call raises (Cwd "..")) (upload_items l'))
          end in
      and_then (call_swallowed (Mkd remote_dir))
        (and_then (call raises (Cwd remote_dir)) (upload_items entries))
  end.

Definition set_ftp_ip (host : string) (fs : ftp_settings) : ftp_settings :=
  {| ftp_ip := host; ftp_port := ftp_port fs; ftp_user := ftp_user fs;
     ftp_pass := ftp_pass fs; drv_field := drv_field fs |}.

(** The digits of a decimal literal: groups of digits with single
    underscores between them, as [int] accepts them ("2_1" is 21; "_1",
    "1_" and "1__2" are refused). *)
Fixpoint digit_groups (s : string) : option string :=
  match s with
  | EmptyString => None
  | String c s' =>
      if Py.is_ascii_digit c then
        match s' with
        | EmptyString => Some (String c EmptyString)
        | String "_" s'' => option_map (String c) (digit_groups s'')
        | String _ _ => option_map (String c) (digit_groups s')
        end
      else None
  end.

(** [int(s)] of a port entry: surrounding blanks, an optional sign, decimal
    digits in groups; anything else is a [ValueError]. *)
Definition int_of_entry (s : string) : option Z :=
  match Py.strip s with
  | String "-" d => option_map (fun ds => - Py.int ds)%Z (digit_groups d)
  | String "+" d => option_map Py.int (digit_groups d)
  | d => option_map Py.int (digit_groups d)
  end.

Definition remote_folder (fs : ftp_settings) : string :=
  (if String.eqb (drv_field fs) "Drive Folder (default: Hdd1)"
   then "Hdd1" else drv_field fs) +:+ "/Content/0000000000000000".

(** [send_over_ftp]. The port is computed before [connect] is called. *)
Definition send_over_ftp (raises : ftp_call -> bool) (fs : ftp_settings)
  (output_dir : string) (tree : dir_tree) : ftp_run :=
  let port := if String.eqb (ftp_port fs) "Port (default: 21)"
              then Some 21%Z else int_of_entry (ftp_port fs) in
  match port with
  | None => ([], true)
  | Some port =>
      and_then (call raises (Connect "192.168.1.28" port))
      (and_then (call raises (Login (ftp_user fs) (ftp_pass fs)))
                (upload_folder raises output_dir tree (remote_folder fs)))
  end.

(** ** Vocabulary of the statements *)

(** The tool identity format [<platform>-<major>.<minor>.<patch>[.<ext>]]:
    the platform has no dash, what follows the patch number is not a digit. *)
Fixpoint no_dash (s : string) : bool :=
  match s with
  | EmptyString => true
  | String c s' => negb (Ascii.eqb c "-") && no_dash s'
  end.

Definition head_not_digit (s : string) : bool :=
  match s with
  | EmptyString => true
  | String c _ => negb (Py.is_ascii_digit c)
  end.

(** [(a, b, c) <= (a', b', c')] on triples of integers. *)
Definition triple_le (a b c a' b' c' : Z) : Prop :=
  (a < a' \/ (a = a' /\ (b < b' \/ (b = b' /\ c <= c'))))%Z.

(** An attempt that concludes with a non-zero exit code: the input could
    be opened, the process started, no time limit was seen exceeded. *)
Definition exits_nonzero (cfg : config) (e : attempt_env) : Prop :=
  open_result e = None /\ spawn_result e = None
  /\ timed_out (timeout_seconds cfg) (polls e) = false
  /\ return_code e <> 0%Z.

(** The queue and the in-flight set agree: no path is queued twice, every
    queued path is in flight, and the path being processed is in flight
    and not queued. *)
Definition session_ok (s : system) : Prop :=
  NoDup (iso_queue s)
  /\ (forall p, p ∈ iso_queue s -> p ∈ processing (handler s))
  /\ (forall p, current_job s = Some p ->
                p ∈ processing (handler s) /\ p ∉ iso_queue s).

(** The watcher leaves the jobs alone or admits one path that was not in
    flight. *)
Definition same_jobs (s s' : system) : Prop :=
  iso_queue s' = iso_queue s
  /\ processing (handler s') = processing (handler s)
  /\ current_job s' = current_job s.

Definition admits (s s' : system) : Prop :=
  same_jobs s s'
  \/ exists p, (p ∉ processing (handler s))
               /\ iso_queue s' = iso_queue s ++ [p]
               /\ processing (handler s') = {[p]} ∪ processing (handler s)
               /\ current_job s' = current_job s.


(** The traces of a queue drained in one go: each job is numbered 1 of
    the number of paths queued when it is taken. *)
Fixpoint drain_traces (cfg : config) (q : list string) (jes : list job_env)
  : list (list action) :=
  match q, jes with
  | iso_path :: q', je :: jes' =>
      fst (process_iso cfg iso_path 1 (Z.of_nat (length q)) je)
      :: drain_traces cfg q' jes'
  | _, _ => []
  end.

(** Steps that leave the shared state alone. *)
Definition silent (a : action) : Prop :=
  match a with
  | SetTitle _ | DiscardInflight _ | TaskDone => False
  | _ => True
  end.

(** The command lines a trace spawns, in order. *)
Definition spawned (acts : list action) : list (list string) :=
  flat_map (fun a => match a with Popen cmd => [cmd] | _ => [] end) acts.

(** How many times a trace starts the upload. *)
Definition uploads (acts : list action) : nat :=
  length (List.filter (fun a => match a with SendOverFtp => true | _ => false end) acts).

(** The sleeps of a trace, in order. *)
Definition sleeps (acts : list action) : list Q :=
  flat_map (fun a => match a with Sleep d => [d] | _ => [] end) acts.

(** The actions of an attempt whose process outlives the limit. *)
Definition timeout_actions (e : attempt_env) : list action :=
  [Terminate; Sleep 1] ++ (if alive_after_terminate e then [Kill] else [])
  ++ [Status MsgTimedOut Error].

(** ** Scenarios *)

(** An attempt whose process starts, is never seen past a time limit,
    writes [err] on its error stream and exits with [rc]. *)
Definition attempt_exits (err : list string) (rc : Z) : attempt_env :=
  {| open_result := None; spawn_result := None;
     stdout_lines := []; stderr_lines := err; polls := [];
     alive_after_terminate := false; return_code := rc;
     still_processing := true; remove_result := None |}.

(** An attempt whose process is still running [elapsed] seconds in. *)
Definition attempt_hangs (elapsed : Q) (alive : bool) : attempt_env :=
  {| open_result := None; spawn_result := None;
     stdout_lines := []; stderr_lines := []; polls := [elapsed];
     alive_after_terminate := alive; return_code := 0;
     still_processing := true; remove_result := None |}.

Definition job_of (e : nat -> attempt_env) : job_env :=
  {| binary_exists := true; attempts := e; ftp_raises := false |}.

Definition settings (binary threads : string) (timeout : Q) (upload : bool) : config :=
  {| ISO2GOD_DIR := "iso2god"; selected_iso2god := binary;
     output_path := "/out"; trim_var := false; thread_count := threads;
     process_timeout := Some timeout; delete_iso_var := true; use_ftp := upload |}.

(** ** Further vocabulary and scenarios *)

(** The files a trace removes, in order. *)
Definition removed (acts : list action) : list string :=
  flat_map (fun a => match a with Remove f => [f] | _ => [] end) acts.

(** The steps of a trace that are not status lines. *)
Definition is_status (a : action) : bool :=
  match a with
  | Status _ _ => true
  | _ => false
  end.

Definition without_status (acts : list action) : list action :=
  List.filter (fun a => negb (is_status a)) acts.

(** The same attempt with other text on the two pipes of the tool. *)
Definition with_output (out err : list string) (e : attempt_env) : attempt_env :=
  {| open_result := open_result e; spawn_result := spawn_result e;
     stdout_lines := out; stderr_lines := err; polls := polls e;
     alive_after_terminate := alive_after_terminate e;
     return_code := return_code e; still_processing := still_processing e;
     remove_result := remove_result e |}.

Definition with_outputs (out err : nat -> list string) (je : job_env) : job_env :=
  {| binary_exists := binary_exists je;
     attempts := fun k => with_output (out k) (err k) (attempts je k);
     ftp_raises := ftp_raises je |}.

(** An attempt that finds the input file locked. *)
Definition attempt_locked : attempt_env :=
  {| open_result := Some PermissionError; spawn_result := None;
     stdout_lines := []; stderr_lines := []; polls := [];
     alive_after_terminate := false; return_code := 0;
     still_processing := true; remove_result := None |}.

(** The two messages on the error stream that [read_output] takes for a
    locked file. *)
Definition lock_line (line : string) : bool :=
  Py.contains "process cannot access the file" line
  || Py.contains "being used by another process" line.

(** The lines of a pipe as the status sink gets them: stripped, the blank
    ones dropped. *)
Definition stripped_lines (pipe : list string) : list string :=
  List.filter (fun l => negb (String.eqb l "")) (map Py.strip pipe).

(** The test [file.lower().endswith('.iso')] of [check_directory]. *)
Definition is_iso_name (file : string) : bool :=
  Py.endswith (Py.lower file) ".iso".

(** The remote side as far as the calls of an upload show it: the working
    directory as the names entered, innermost first, and the files stored,
    each with the directory it went to and the local file it came from. *)
Fixpoint remote_run (cwd : list string) (calls : list ftp_call)
  : list string * list (list string * string * string) :=
  match calls with
  | [] => (cwd, [])
  | Cwd dirname :: rest =>
      remote_run (if String.eqb dirname ".." then tl cwd else dirname :: cwd) rest
  | Storbinary local_path remote_name :: rest =>
      let (final, files) := remote_run cwd rest in
      (final, (cwd, remote_name, local_path) :: files)
  | _ :: rest => remote_run cwd rest
  end.

(** The files of a local tree, each with the remote directory that mirrors
    its place and with its local path. *)
Fixpoint tree_files (cwd : list string) (local_dir : string) (tree : dir_tree)
  : list (list string * string * string) :=
  match tree with
  | Listing entries =>
      (fix files (l : list (string * option dir_tree)) :=
         match l with
         | [] => []
         | (item, None) :: l' => (cwd, item, Py.path_join local_dir item) :: files l'
         | (item, Some sub) :: l' =>
             tree_files (item :: cwd) (Py.path_join local_dir item) sub ++ files l'
         end) entries
  end.

(** No entry is called "..": [os.listdir] never lists it. *)
Fixpoint proper_names (tree : dir_tree) : bool :=
  match tree with
  | Listing entries =>
      (fix all (l : list (string * option dir_tree)) :=
         match l with
         | [] => true
         | (item, sub) :: l' =>
             negb (String.eqb item "..")
             && match sub with Some t => proper_names t | None => true end
             && all l'
         end) entries
  end.

(** The calls whose exceptions [upload_folder] and [send_over_ftp] let
    through: all but [mkd] (and the status line). *)
Definition propagating (c : ftp_call) : bool :=
  match c with
  | Mkd _ | Say _ => false
  | _ => true
  end.

Definition all_went_well (raises : ftp_call -> bool) (calls : list ftp_call) : Prop :=
  Forall (fun c => propagating c = true -> raises c = false) calls.

(** A run that ended well made only calls that went well; a run that ended
    in an exception stopped at the call that raised it. *)
Definition stops_at_first_error (raises : ftp_call -> bool) (r : ftp_run) : Prop :=
  (snd r = false -> all_went_well raises (fst r))
  /\ (snd r = true ->
      exists before c, fst r = before ++ [c]
                       /\ propagating c = true /\ raises c = true
                       /\ all_went_well raises before).

(** ** Saved settings: [DEFAULT_CONFIG], [load_config], [save_config] *)

Module SavedSettings.

(** The JSON values of a settings file: the strings and booleans the
    program writes, and numbers and null. Arrays and nested objects, which
    only a file edited by hand could hold, are left out. *)
Inductive json :=
| JString (s : string)
| JBool (b : bool)
| JNumber (n : Z)
| JNull.

Definition DEFAULT_CONFIG : gmap string json :=
  <["watch_dir" := JString ""]>
  (<["output_dir" := JString ""]>
  (<["trim_unused" := JBool false]>
  (<["thread_count" := JString "4"]>
  (<["scan_delay" := JString "2"]>
  (<["delete_iso" := JBool true]>
  (<["process_timeout" := JString "0"]>
  (<["iso2god_binary" := JString ""]>
  (<["use_ftp" := JBool false]>
  (<["ip_addr" := JString ""]>
  (<["ftp_port" := JString ""]>
  (<["ftp_user" := JString ""]>
  (<["ftp_pass" := JString ""]>
  (<["drv_name" := JString ""]> ∅))))))))))))).

(** What the widgets hold when [save_config] reads them. *)
Record entries := {
  watch_path : string;
  output_path : string;
  trim_var : bool;
  thread_count : string;
  scan_delay : string;
  delete_iso_var : bool;
  process_timeout : string;
  selected_iso2god : string;
  use_ftp : bool;
  ftp_ip : string;
  ftp_port : string;
  ftp_user : string;
  ftp_pass : string;
  drv_field : string
}.

(** The dictionary [save_config] hands to [json.dump]. *)
Definition saved (e : entries) : gmap string json :=
  <["watch_dir" := JString (watch_path e)]>
  (<["output_dir" := JString (output_path e)]>
  (<["trim_unused" := JBool (trim_var e)]>
  (<["thread_count" := JString (thread_count e)]>
  (<["scan_delay" := JString (scan_delay e)]>
  (<["delete_iso" := JBool (delete_iso_var e)]>
  (<["process_timeout" := JString (process_timeout e)]>
  (<["iso2god_binary" := JString (selected_iso2god e)]>
  (<["use_ftp" := JBool (use_ftp e)]>
  (<["ip_addr" := JString (ftp_ip e)]>
  (<["ftp_port" := JString (ftp_port e)]>
  (<["ftp_user" := JString (ftp_user e)]>
  (<["ftp_pass" := JString (ftp_pass e)]>
  (<["drv_name" := JString (drv_field e)]> ∅))))))))))))).

(** The settings file as [load_config] finds it: missing, not readable as
    a JSON object, or an object. *)
Inductive config_file :=
| Missing
| Unreadable
| Object (d : gmap string json).

(** [save_config]: the file is replaced when it can be written; when it
    cannot be opened for writing, the error is reported and the file is
    left as it was. A write that fails half way is not modelled. *)
Definition save_config (writable : bool) (e : entries) (f : config_file)
  : config_file :=
  if writable then Object (saved e) else f.

(** [load_config]. An object updates a copy of the defaults. An unreadable
    file is reported through [update_status] and the defaults are
    returned; [update_status] needs the status widgets, and raises when
    they do not exist yet ([status_ready] false), in which case
    [load_config] raises too ([None]). *)
Definition load_config (status_ready : bool) (f : config_file)
  : option (gmap string json) :=
  match f with
  | Missing => Some DEFAULT_CONFIG
  | Object d => Some (d ∪ DEFAULT_CONFIG)
  | Unreadable => if status_ready then Some DEFAULT_CONFIG else None
  end.

End SavedSettings.

(** ** The scan for tool binaries: the pattern of [find_iso2god_binaries] *)

Definition is_alnum (c : ascii) : bool :=
  let n := nat_of_ascii c in
  Py.is_ascii_digit c
  || ((65 <=? n)%nat && (n <=? 90)%nat)
  || ((97 <=? n)%nat && (n <=? 122)%nat).

(** A character of the class [[\d.]]. *)
Definition is_version_char (c : ascii) : bool :=
  Py.is_ascii_digit c || Ascii.eqb c ".".

(** [$]: the end of the name, or a line feed that ends the name. *)
Definition at_end (s : string) : bool :=
  match s with
  | EmptyString => true
  | String c EmptyString => Ascii.eqb c "010"
  | _ => false
  end.

(** [[a-zA-Z0-9]*$] *)
Fixpoint alnum_star_end (s : string) : bool :=
  at_end s ||
  match s with
  | EmptyString => false
  | String c s' => is_alnum c && alnum_star_end s'
  end.

(** [[a-zA-Z0-9]+$] *)
Definition alnum_plus_end (s : string) : bool :=
  match s with
  | EmptyString => false
  | String c s' => is_alnum c && alnum_star_end s'
  end.

(** [[\d.]*(\.[a-zA-Z0-9]+)?$]: the run of digits and dots may stop at
    any of its dots to let the extension start there. *)
Fixpoint version_tail (s : string) : bool :=
  at_end s ||
  match s with
  | EmptyString => false
  | String c s' =>
      (Ascii.eqb c "." && alnum_plus_end s')
      || (is_version_char c && version_tail s')
  end.

(** [[\d.]+(\.[a-zA-Z0-9]+)?$] *)
Definition version_and_ext (s : string) : bool :=
  match s with
  | EmptyString => false
  | String c s' => is_version_char c && version_tail s'
  end.

Fixpoint strip_prefix (p s : string) : option string :=
  match p, s with
  | EmptyString, _ => Some s
  | String a p', String b s' => if Ascii.eqb a b then strip_prefix p' s' else None
  | String _ _, EmptyString => None
  end.

Definition platforms : list string := ["windows"; "mac"; "linux"].

(** [re.compile(r'^(windows|mac|linux)-[\d.]+(\.[a-zA-Z0-9]+)?$').match(fname)]
    finds a match. *)
Definition binary_pattern (fname : string) : bool :=
  existsb (fun platform =>
             match strip_prefix (platform +:+ "-") fname with
             | Some rest => version_and_ext rest
             | None => false
             end) platforms.

(** What [is_legacy_version] makes of the text that follows a dash. *)
Definition legacy_at (rest : string) : bool :=
  match match_triple rest with
  | Some version => Py.tuple_le (map Py.int (Py.split "." version)) [1; 6; 0]%Z
  | None => false
  end.

(** * Properties *)

Example legacy_160 : is_legacy_version "windows-1.6.0.exe" = true.
Proof. reflexivity. Qed.
Example legacy_152 : is_legacy_version "linux-1.5.2" = true.
Proof. reflexivity. Qed.
Example legacy_161 : is_legacy_version "mac-1.6.1" = false.
Proof. reflexivity. Qed.
Example legacy_1100 : is_legacy_version "linux-1.10.0" = false.
Proof. reflexivity. Qed.
Example legacy_two_parts : is_legacy_version "windows-1.5" = false.
Proof. reflexivity. Qed.
Example basename_ex : Py.basename "/srv/in/game1.iso" = "game1.iso".
Proof. reflexivity. Qed.
Example splitext_ex : Py.splitext_root "game.v2.iso" = "game.v2".
Proof. reflexivity. Qed.
Example splitext_hidden : Py.splitext_root ".iso" = ".iso".
Proof. reflexivity. Qed.
Example strip_ex : Py.strip "  a b  " = "a b".
Proof. reflexivity. Qed.

(** ** Traces of the supervisor *)

(** Where the steps of a job come from: the opening of [process_iso], one
    of the attempts, or the [finally] block. *)
Lemma retry_loop_in a n cfg p legacy k env :
  In a (fst (retry_loop n cfg p legacy k env)) ->
  exists j, In a (fst (attempt cfg p legacy j (env j))).
Proof.
  revert k. induction n as [|n IH]; intros k; simpl; [tauto|].
  destruct (attempt cfg p legacy k (env k)) as [acts v] eqn:Ha.
  destruct v as [|o].
  - specialize (IH (S k)).
    destruct (retry_loop n cfg p legacy (S k) env) as [more o]. simpl in *.
    rewrite in_app_iff. intros [H|H]; [|auto].
    exists k. now rewrite Ha.
  - simpl. intros H. exists k. now rewrite Ha.
Qed.

Lemma process_iso_body_in a cfg p je :
  In a (fst (process_iso_body cfg p je)) ->
  In a [SetTitle (Py.splitext_root (Py.basename p)); Status MsgFound Found;
        Status MsgNoBinary Error; Status MsgBinaryNotFound Error]
  \/ exists j, In a (fst (attempt cfg p (is_legacy_version (selected_iso2god cfg))
                            j (attempts je j))).
Proof.
  unfold process_iso_body.
  pose proof (retry_loop_in a max_retries cfg p
                (is_legacy_version (selected_iso2god cfg)) 0 (attempts je)) as Hl.
  destruct (retry_loop _ _ _ _ _ _) as [acts o]. simpl in Hl.
  destruct (String.eqb _ _); [simpl; tauto|].
  destruct (negb _); simpl; [tauto|].
  intros [H|[H|H]]; auto.
Qed.

Lemma process_iso_finally_in a cfg p idx total je :
  In a (process_iso_finally cfg p idx total je) ->
  In a [SetTitle "None"; DiscardInflight p; TaskDone; Status MsgFtpYes Info;
        SendOverFtp; Status MsgFtpError Info; Status MsgFtpNo Info;
        Status MsgReady Info].
Proof.
  unfold process_iso_finally.
  destruct (use_ftp cfg), (idx =? total)%Z, (ftp_raises je); simpl; tauto.
Qed.

Lemma process_iso_split cfg p idx total je :
  process_iso cfg p idx total je
  = (fst (process_iso_body cfg p je) ++ process_iso_finally cfg p idx total je,
     snd (process_iso_body cfg p je)).
Proof. unfold process_iso. now destruct (process_iso_body cfg p je). Qed.

Lemma process_iso_in a cfg p idx total je :
  In a (fst (process_iso cfg p idx total je)) ->
  In a [SetTitle (Py.splitext_root (Py.basename p)); Status MsgFound Found;
        Status MsgNoBinary Error; Status MsgBinaryNotFound Error;
        SetTitle "None"; DiscardInflight p; TaskDone; Status MsgFtpYes Info;
        SendOverFtp; Status MsgFtpError Info; Status MsgFtpNo Info;
        Status MsgReady Info]
  \/ exists j, In a (fst (attempt cfg p (is_legacy_version (selected_iso2god cfg))
                            j (attempts je j))).
Proof.
  rewrite process_iso_split. cbn [fst]. rewrite in_app_iff.
  intros [H|H].
  - apply process_iso_body_in in H as [H|H]; [left|now right].
    simpl in *. tauto.
  - apply process_iso_finally_in in H. left. simpl in *. tauto.
Qed.

(** Every spawn of an attempt runs the command line [build_cmd]. *)
Lemma attempt_popen cfg p legacy k e cmd :
  In (Popen cmd) (fst (attempt cfg p legacy k e)) ->
  cmd = build_cmd cfg p legacy.
Proof.
  unfold attempt, prepend, attempt_start, on_permission_error, on_success.
  repeat case_match; simpl; rewrite ?in_app_iff; simpl; rewrite ?in_app_iff; simpl;
    intros Hin; repeat (destruct Hin as [Hin|Hin]; try discriminate; try contradiction);
    try (injection Hin; intros; subst; reflexivity).
Qed.

Lemma process_iso_popen cfg p idx total je cmd :
  In (Popen cmd) (fst (process_iso cfg p idx total je)) ->
  cmd = build_cmd cfg p (is_legacy_version (selected_iso2god cfg)).
Proof.
  intros H. apply process_iso_in in H as [H|[j H]].
  - simpl in H. intuition discriminate.
  - eapply attempt_popen; eassumption.
Qed.

(** ** The legacy shim *)

Lemma digit_not_dot c : Py.is_ascii_digit c = true -> Ascii.eqb c "." = false.
Proof.
  destruct c as [[] [] [] [] [] [] [] []]; try reflexivity; discriminate.
Qed.

Lemma isdigit_all_digits d : Py.isdigit d = true -> Py.all_digits d = true.
Proof. destruct d; [discriminate | auto]. Qed.

Lemma span_digits_app d r :
  Py.all_digits d = true -> head_not_digit r = true ->
  span_digits (d +:+ r) = (d, r).
Proof.
  intros Hd Hr. induction d as [|c d IH]; simpl in *.
  - destruct r as [|c r]; [reflexivity|]. simpl in Hr.
    apply negb_true_iff in Hr. simpl. now rewrite Hr.
  - apply andb_true_iff in Hd as [Hc Hd]. rewrite Hc, (IH Hd). reflexivity.
Qed.

Lemma dot_append x : "." +:+ x = String "." x.
Proof. reflexivity. Qed.

Lemma match_triple_format d1 d2 d3 rest :
  Py.isdigit d1 = true -> Py.isdigit d2 = true -> Py.isdigit d3 = true ->
  head_not_digit rest = true ->
  match_triple (d1 +:+ "." +:+ d2 +:+ "." +:+ d3 +:+ rest)
  = Some (d1 +:+ "." +:+ d2 +:+ "." +:+ d3).
Proof.
  intros H1 H2 H3 Hr. unfold match_triple. rewrite !dot_append.
  rewrite (span_digits_app d1) by (auto using isdigit_all_digits).
  destruct d1 as [|c1 d1]; [discriminate|].
  rewrite (span_digits_app d2) by (auto using isdigit_all_digits).
  destruct d2 as [|c2 d2]; [discriminate|].
  rewrite (span_digits_app d3) by (auto using isdigit_all_digits).
  destruct d3 as [|c3 d3]; [discriminate|]. reflexivity.
Qed.

Lemma re_search_version_format platform s v :
  no_dash platform = true -> match_triple s = Some v ->
  re_search_version (platform +:+ "-" +:+ s) = Some v.
Proof.
  intros Hp Hs. induction platform as [|c p IH].
  - change (re_search_version (String "-" s) = Some v).
    cbn [re_search_version]. now rewrite Ascii.eqb_refl, Hs.
  - cbn [no_dash] in Hp. apply andb_true_iff in Hp as [Hc Hp].
    apply negb_true_iff in Hc.
    change (re_search_version (String c (p +:+ "-" +:+ s)) = Some v).
    cbn [re_search_version]. rewrite Hc. auto.
Qed.

Lemma split_digits_dot d r :
  Py.all_digits d = true ->
  Py.split "." (d +:+ "." +:+ r) = d :: Py.split "." r.
Proof.
  intros Hd. induction d as [|c d IH]; simpl in *; [reflexivity|].
  apply andb_true_iff in Hd as [Hc Hd].
  rewrite (digit_not_dot c Hc), (IH Hd). reflexivity.
Qed.

Lemma split_digits d : Py.all_digits d = true -> Py.split "." d = [d].
Proof.
  intros Hd. induction d as [|c d IH]; simpl in *; [reflexivity|].
  apply andb_true_iff in Hd as [Hc Hd].
  rewrite (digit_not_dot c Hc), (IH Hd). reflexivity.
Qed.

Lemma tuple_le_160 a b c :
  Py.tuple_le [a; b; c] [1; 6; 0]%Z = true <-> triple_le a b c 1 6 0.
Proof.
  unfold triple_le. simpl.
  destruct (Z.eqb_spec a 1), (Z.eqb_spec b 6), (Z.eqb_spec c 0);
    rewrite ?Z.ltb_lt; try lia;
    split; intros; try lia; try reflexivity; try discriminate.
Qed.

(** On an identifier of the documented format the parsed triple is
    (major, minor, patch) and legacy mode is the comparison with (1, 6, 0). *)
Lemma is_legacy_version_format platform major minor patch ext :
  no_dash platform = true ->
  Py.isdigit major = true -> Py.isdigit minor = true -> Py.isdigit patch = true ->
  head_not_digit ext = true ->
  is_legacy_version
    (platform +:+ "-" +:+ major +:+ "." +:+ minor +:+ "." +:+ patch +:+ ext) = true
  <-> triple_le (Py.int major) (Py.int minor) (Py.int patch) 1 6 0.
Proof.
  intros Hp H1 H2 H3 He. unfold is_legacy_version.
  rewrite (re_search_version_format platform _ _ Hp
             (match_triple_format major minor patch ext H1 H2 H3 He)).
  rewrite split_digits_dot by auto using isdigit_all_digits.
  rewrite split_digits_dot by auto using isdigit_all_digits.
  rewrite split_digits by auto using isdigit_all_digits.
  simpl map. apply tuple_le_160.
Qed.

(** C2, as amended: every command line the supervisor spawns for a job is
    the executable, the input path and the output directory, then
    [--trim] if asked for, then [-j <thread count>] exactly when the
    thread count entry is a non-empty string of decimal digits (zero
    included) and the tool is not in legacy mode. On a tool identifier
    [<platform>-<major>.<minor>.<patch><ext>] legacy mode holds exactly
    when (major, minor, patch) <= (1, 6, 0). A job in legacy mode never
    gets the flag, on the first attempt or later, whatever the thread
    count is. *)
Theorem thread_flag_rule cfg iso_path current_index total_count je cmd :
  In (Popen cmd) (fst (process_iso cfg iso_path current_index total_count je)) ->
  let legacy_mode := is_legacy_version (selected_iso2god cfg) in
  let base :=
    [Py.path_join (ISO2GOD_DIR cfg) (selected_iso2god cfg); iso_path; output_path cfg]
    ++ (if trim_var cfg then ["--trim"] else []) in
  cmd = base ++ (if Py.isdigit (thread_count cfg) && negb legacy_mode
                 then ["-j"; thread_count cfg] else [])
  /\ (legacy_mode = true -> cmd = base)
  /\ (forall platform major minor patch ext,
        selected_iso2god cfg
        = platform +:+ "-" +:+ major +:+ "." +:+ minor +:+ "." +:+ patch +:+ ext ->
        no_dash platform = true ->
        Py.isdigit major = true -> Py.isdigit minor = true ->
        Py.isdigit patch = true -> head_not_digit ext = true ->
        (legacy_mode = true
         <-> triple_le (Py.int major) (Py.int minor) (Py.int patch) 1 6 0)).
Proof.
  intros Hin legacy_mode base.
  apply process_iso_popen in Hin. fold legacy_mode in Hin.
  assert (Hcmd : cmd = base ++ (if Py.isdigit (thread_count cfg) && negb legacy_mode
                                then ["-j"; thread_count cfg] else [])).
  { subst cmd. unfold build_cmd, thread_flag, add_j, base.
    now rewrite <- app_assoc. }
  split; [exact Hcmd|]. split.
  - intros Hl. rewrite Hcmd, Hl, andb_false_r. apply app_nil_r.
  - intros platform major minor patch ext Hname Hp H1 H2 H3 He.
    unfold legacy_mode. rewrite Hname.
    now apply is_legacy_version_format.
Qed.

(** The rule at work on a legacy tool with four threads asked for. *)
Lemma thread_flag_rule_witness :
  let cfg := settings "windows-1.6.0.exe" "4" 0 false in
  let cmd := ["iso2god/windows-1.6.0.exe"; "/in/game1.iso"; "/out"] in
  In (Popen cmd)
     (fst (process_iso cfg "/in/game1.iso" 1 1 (job_of (fun _ => attempt_exits [] 0))))
  /\ triple_le 1 6 0 1 6 0
  /\ is_legacy_version (selected_iso2god cfg) = true.
Proof.
  intros cfg cmd.
  assert (Hin : In (Popen cmd)
     (fst (process_iso cfg "/in/game1.iso" 1 1 (job_of (fun _ => attempt_exits [] 0))))).
  { vm_compute. tauto. }
  split; [exact Hin|].
  destruct (thread_flag_rule cfg "/in/game1.iso" 1 1
              (job_of (fun _ => attempt_exits [] 0)) cmd Hin) as (_ & _ & Hfmt).
  assert (Hl : triple_le 1 6 0 1 6 0) by (unfold triple_le; lia).
  split; [exact Hl|].
  apply (Hfmt "windows" "1" "6" "0" ".exe"); try reflexivity. exact Hl.
Defined.

(** C2 as stated fails: with the thread count entry "0", which is not a
    positive integer, a tool newer than 1.6.0 is started with [-j 0]. *)
Lemma thread_flag_zero_counterexample :
  let cfg := settings "windows-1.7.0.exe" "0" 0 false in
  Py.isdigit (thread_count cfg) = true
  /\ Py.int (thread_count cfg) = 0%Z
  /\ is_legacy_version (selected_iso2god cfg) = false
  /\ In (Popen ["iso2god/windows-1.7.0.exe"; "/in/game1.iso"; "/out"; "-j"; "0"])
        (fst (process_iso cfg "/in/game1.iso" 1 1
                (job_of (fun _ => attempt_exits [] 0)))).
Proof.
  repeat split; try reflexivity. vm_compute. tauto.
Qed.

(** ** Retries of the supervisor *)

(** [add_j] already requires a tool that is not legacy, so the guard of
    the legacy retry, [legacy_mode and error_detected and add_j], is
    never true. *)
Lemma legacy_guard_false cfg legacy e :
  legacy && unexpected_j legacy e && add_j cfg legacy = false.
Proof.
  unfold add_j. destruct legacy; simpl; [|reflexivity].
  now rewrite !andb_false_r.
Qed.

Lemma on_permission_error_retry k m1 m2 o :
  snd (on_permission_error k m1 m2 o) = Retry ->
  fst (on_permission_error k m1 m2 o) = [Status m1 Error; Sleep retry_delay].
Proof.
  unfold on_permission_error.
  destruct (k <? max_retries - 1)%nat; simpl; [reflexivity | discriminate].
Qed.

(** An attempt that is retried ends in the 120 second sleep. *)
Lemma attempt_retry_sleeps cfg p legacy k e :
  snd (attempt cfg p legacy k e) = Retry ->
  exists pre, fst (attempt cfg p legacy k e) = pre ++ [Sleep retry_delay].
Proof.
  unfold attempt, prepend. rewrite legacy_guard_false.
  destruct (open_result e) as [[|]|]; cbn [fst snd].
  - intros H. rewrite (on_permission_error_retry _ _ _ _ H).
    now exists [OpenCheck p; Status (MsgLockedRetry (k + 1)) Error].
  - discriminate.
  - destruct (spawn_result e) as [[|]|]; cbn [fst snd].
    + intros H. rewrite (on_permission_error_retry _ _ _ _ H).
      exists (attempt_start cfg p legacy ++ [Status (MsgAccessRetry (k + 1)) Error]).
      now rewrite <- app_assoc.
    + discriminate.
    + destruct (timed_out _ _); [discriminate|].
      destruct (return_code e =? 0)%Z; [discriminate|].
      destruct (k <? max_retries - 1)%nat; [|discriminate]. intros _.
      exists (attempt_start cfg p legacy
              ++ [Status (MsgFailedRetry (return_code e) (k + 1)) Error]).
      now rewrite <- app_assoc.
Qed.

Lemma attempt_no_legacy_retry cfg p legacy k e :
  ~ In (Status MsgLegacyRetry Error) (fst (attempt cfg p legacy k e)).
Proof.
  unfold attempt, prepend, attempt_start, on_permission_error, on_success.
  rewrite legacy_guard_false.
  repeat case_match; simpl; rewrite ?in_app_iff; simpl; rewrite ?in_app_iff; simpl;
    intuition discriminate.
Qed.

Lemma process_iso_no_legacy_retry cfg p idx total je :
  ~ In (Status MsgLegacyRetry Error) (fst (process_iso cfg p idx total je)).
Proof.
  intros H. apply process_iso_in in H as [H|[j H]].
  - simpl in H. intuition discriminate.
  - eapply attempt_no_legacy_retry; eassumption.
Qed.

(** X19: the retry without [-j] is never taken. In legacy mode the flag is
    never sent, so the guard of the legacy retry is false for every job;
    the message of that retry occurs in no trace; every attempt that is
    retried ends with the 120 second sleep. A legacy tool that reports the
    rejected flag and fails is retried twice, each time after 120 seconds,
    and then skipped. A tool whose identifier carries no three-part
    version is not in legacy mode: it is sent the flag, its rejection is
    not looked for, and it is started with the flag three times, 120
    seconds apart. *)
Theorem legacy_retry_never_taken :
  (forall cfg legacy e,
      legacy && unexpected_j legacy e && add_j cfg legacy = false)
  /\ (forall cfg iso_path current_index total_count je,
        ~ In (Status MsgLegacyRetry Error)
            (fst (process_iso cfg iso_path current_index total_count je)))
  /\ (forall cfg iso_path legacy current_try e,
        snd (attempt cfg iso_path legacy current_try e) = Retry ->
        exists pre,
          fst (attempt cfg iso_path legacy current_try e) = pre ++ [Sleep retry_delay])
  /\ (let cfg := settings "windows-1.6.0.exe" "4" 0 false in
      let je := job_of (fun _ =>
                  attempt_exits ["error: unexpected argument '-j' found"] 2) in
      let cmd := ["iso2god/windows-1.6.0.exe"; "/in/game1.iso"; "/out"] in
      unexpected_j true (attempts je 0%nat) = true
      /\ process_iso cfg "/in/game1.iso" 1 1 je
         = ([SetTitle "game1"; Status MsgFound Found;
             OpenCheck "/in/game1.iso"; Status MsgStarting Info; Popen cmd;
             Status (MsgFailedRetry 2 1) Error; Sleep 120;
             OpenCheck "/in/game1.iso"; Status MsgStarting Info; Popen cmd;
             Status (MsgFailedRetry 2 2) Error; Sleep 120;
             OpenCheck "/in/game1.iso"; Status MsgStarting Info; Popen cmd;
             Status (MsgFailedSkip 2) Error;
             SetTitle "None"; DiscardInflight "/in/game1.iso"; TaskDone;
             Status MsgFtpNo Info; Status MsgReady Info],
            FailedExhausted 2))
  /\ (let cfg := settings "windows-1.5.exe" "4" 0 false in
      let je := job_of (fun _ =>
                  attempt_exits ["error: unexpected argument '-j' found"] 2) in
      let cmd := ["iso2god/windows-1.5.exe"; "/in/game1.iso"; "/out"; "-j"; "4"] in
      is_legacy_version (selected_iso2god cfg) = false
      /\ spawned (fst (process_iso cfg "/in/game1.iso" 1 1 je)) = [cmd; cmd; cmd]
      /\ sleeps (fst (process_iso cfg "/in/game1.iso" 1 1 je)) = [120; 120]%Q
      /\ snd (process_iso cfg "/in/game1.iso" 1 1 je) = FailedExhausted 2).
Proof.
  split; [exact legacy_guard_false|].
  split; [exact process_iso_no_legacy_retry|].
  split; [exact attempt_retry_sleeps|].
  split; repeat split; reflexivity.
Qed.

(** An attempt that exits with a non-zero code: retried after the delay
    while [current_try < max_retries - 1], given up otherwise. *)
Lemma attempt_exits_nonzero cfg p legacy k e :
  exits_nonzero cfg e ->
  attempt cfg p legacy k e
  = if (k <? max_retries - 1)%nat then
      (attempt_start cfg p legacy
         ++ [Status (MsgFailedRetry (return_code e) (k + 1)) Error; Sleep retry_delay],
       Retry)
    else
      (attempt_start cfg p legacy ++ [Status (MsgFailedSkip (return_code e)) Error],
       Return (FailedExhausted (return_code e))).
Proof.
  intros (Ho & Hs & Ht & Hrc). unfold attempt.
  rewrite Ho, Hs, Ht, legacy_guard_false.
  apply Z.eqb_neq in Hrc. now rewrite Hrc.
Qed.

(** C4: a job whose attempts all exit with a non-zero code is started
    exactly three times, with a sleep of exactly 120 seconds after the
    first and after the second failure and none after the third, and is
    then given up. Any attempt that exits with a non-zero code is followed
    by that sleep and another attempt if it is the first or the second,
    and ends the job if it is the third. *)
Theorem nonzero_exit_retry_policy cfg iso_path je :
  selected_iso2god cfg <> "" ->
  binary_exists je = true ->
  (forall k, (k < max_retries)%nat -> exits_nonzero cfg (attempts je k)) ->
  let legacy_mode := is_legacy_version (selected_iso2god cfg) in
  let start := attempt_start cfg iso_path legacy_mode in
  let rc k := return_code (attempts je k) in
  retry_delay = 120%Q
  /\ process_iso_body cfg iso_path je
     = ([SetTitle (Py.splitext_root (Py.basename iso_path)); Status MsgFound Found]
        ++ (start ++ [Status (MsgFailedRetry (rc 0%nat) 1) Error; Sleep 120])
        ++ (start ++ [Status (MsgFailedRetry (rc 1%nat) 2) Error; Sleep 120])
        ++ (start ++ [Status (MsgFailedSkip (rc 2%nat)) Error]),
        FailedExhausted (rc 2%nat))
  /\ (forall k, (k < max_retries)%nat ->
        snd (attempt cfg iso_path legacy_mode k (attempts je k))
        = if (k <? 2)%nat then Retry else Return (FailedExhausted (rc k))).
Proof.
  intros Hsel Hbin Hfail legacy_mode start rc.
  split; [reflexivity|]. split.
  - unfold process_iso_body. apply String.eqb_neq in Hsel.
    rewrite Hsel, Hbin. cbn [negb]. fold legacy_mode.
    unfold max_retries. cbn [retry_loop].
    rewrite !attempt_exits_nonzero by (apply Hfail; unfold max_retries; lia).
    cbn [Nat.ltb Nat.leb max_retries Nat.sub]. subst start rc. cbn [Nat.add].
    reflexivity.
  - intros k Hk. rewrite attempt_exits_nonzero by auto.
    unfold max_retries. cbn [Nat.sub]. now destruct (k <? 2)%nat.
Qed.

Lemma nonzero_exit_retry_policy_witness :
  let cfg := settings "linux-1.8.1" "4" 0 false in
  let je := job_of (fun _ => attempt_exits [] 1) in
  let cmd := ["iso2god/linux-1.8.1"; "/in/game3.iso"; "/out"; "-j"; "4"] in
  snd (process_iso_body cfg "/in/game3.iso" je) = FailedExhausted 1
  /\ spawned (fst (process_iso_body cfg "/in/game3.iso" je)) = [cmd; cmd; cmd]
  /\ sleeps (fst (process_iso_body cfg "/in/game3.iso" je)) = [120; 120]%Q.
Proof.
  intros cfg je cmd.
  assert (Hsel : selected_iso2god cfg <> "") by discriminate.
  assert (Hfail : forall k, (k < max_retries)%nat -> exits_nonzero cfg (attempts je k)).
  { intros k _. repeat split. discriminate. }
  destruct (nonzero_exit_retry_policy cfg "/in/game3.iso" je Hsel eq_refl Hfail)
    as (_ & Hbody & _).
  rewrite Hbody. repeat split; reflexivity.
Defined.

(** ** Timeouts *)

Lemma Qlt_bool_iff a b : Qlt_bool a b = true <-> (a < b)%Q.
Proof.
  unfold Qlt_bool. rewrite negb_true_iff. split.
  - intros H. apply Qnot_le_lt. intros Hle.
    apply Qle_bool_iff in Hle. congruence.
  - intros H. destruct (Qle_bool b a) eqn:E; [|reflexivity].
    apply Qle_bool_iff in E. exfalso. eapply Qlt_not_le; eassumption.
Qed.

Lemma timed_out_intro cfg e minutes elapsed :
  process_timeout cfg = Some minutes -> (0 < minutes)%Q ->
  In elapsed (polls e) -> (minutes * 60 < elapsed)%Q ->
  timed_out (timeout_seconds cfg) (polls e) = true.
Proof.
  intros Hcfg Hpos Hin Hlt. unfold timeout_seconds. rewrite Hcfg.
  apply Qlt_bool_iff in Hpos as Hb. rewrite Hb. unfold timed_out.
  apply andb_true_iff. split.
  - apply negb_true_iff. destruct (Qeq_bool (minutes * 60) 0) eqn:E; [|reflexivity].
    apply Qeq_bool_iff in E. lra.
  - apply existsb_exists. exists elapsed. split; [exact Hin|].
    now apply Qlt_bool_iff.
Qed.

Lemma attempt_timed_out cfg p legacy k e :
  open_result e = None -> spawn_result e = None ->
  timed_out (timeout_seconds cfg) (polls e) = true ->
  attempt cfg p legacy k e
  = (attempt_start cfg p legacy ++ timeout_actions e, Return TimedOut).
Proof.
  intros Ho Hs Ht. unfold attempt, timeout_actions. now rewrite Ho, Hs, Ht.
Qed.

(** The loop reaches attempt [k] when the attempts before it were retried,
    and ends there when that attempt returns. *)
Lemma retry_loop_returns_at n cfg p legacy env k acts o : forall k0,
  (k0 <= k)%nat -> (k < k0 + n)%nat ->
  (forall j, (k0 <= j)%nat -> (j < k)%nat ->
             snd (attempt cfg p legacy j (env j)) = Retry) ->
  attempt cfg p legacy k (env k) = (acts, Return o) ->
  exists before, retry_loop n cfg p legacy k0 env = (before ++ acts, o).
Proof.
  induction n as [|n IH]; intros k0 Hle Hlt Hretry Hret; [lia|].
  cbn [retry_loop].
  destruct (Nat.eq_dec k0 k) as [->|Hne].
  - rewrite Hret. now exists [].
  - specialize (Hretry k0 (Nat.le_refl _) ltac:(lia)) as Hr.
    destruct (attempt cfg p legacy k0 (env k0)) as [acts0 v]. simpl in Hr. subst v.
    destruct (IH (S k0)) as [before Hb]; [lia | lia | | exact Hret |].
    { intros j Hj1 Hj2. apply Hretry; lia. }
    rewrite Hb. exists (acts0 ++ before). now rewrite app_assoc.
Qed.

(** The source file is removed by a successful attempt only. *)
Lemma attempt_remove cfg p legacy k e f :
  In (Remove f) (fst (attempt cfg p legacy k e)) ->
  snd (attempt cfg p legacy k e) = Return Converted.
Proof.
  unfold attempt, prepend, attempt_start, on_permission_error.
  repeat case_match; simpl; rewrite ?in_app_iff; simpl; rewrite ?in_app_iff; simpl;
    try reflexivity;
    intros Hin; repeat (destruct Hin as [Hin|Hin]; try discriminate; try contradiction).
Qed.

Lemma retry_loop_remove n cfg p legacy env f : forall k,
  In (Remove f) (fst (retry_loop n cfg p legacy k env)) ->
  snd (retry_loop n cfg p legacy k env) = Converted.
Proof.
  induction n as [|n IH]; intros k; simpl; [tauto|].
  pose proof (attempt_remove cfg p legacy k (env k) f) as Ha.
  destruct (attempt cfg p legacy k (env k)) as [acts [|o]]; simpl in *.
  - specialize (IH (S k)).
    destruct (retry_loop n cfg p legacy (S k) env) as [more o]. simpl in *.
    rewrite in_app_iff. intros [H|H]; [|auto].
    specialize (Ha H). discriminate.
  - intros H. specialize (Ha H). congruence.
Qed.

Lemma process_iso_remove cfg p idx total je f :
  In (Remove f) (fst (process_iso cfg p idx total je)) ->
  snd (process_iso cfg p idx total je) = Converted.
Proof.
  rewrite process_iso_split. cbn [fst snd]. rewrite in_app_iff.
  intros [H|H].
  - revert H. unfold process_iso_body.
    pose proof (retry_loop_remove max_retries cfg p
                  (is_legacy_version (selected_iso2god cfg)) (attempts je) f 0) as Hl.
    destruct (retry_loop _ _ _ _ _ _) as [acts o]. simpl in Hl.
    destruct (String.eqb _ _); [simpl; intuition discriminate|].
    destruct (negb _); simpl; intuition discriminate.
  - apply process_iso_finally_in in H. simpl in H. intuition discriminate.
Qed.

Lemma process_iso_finally_no_popen cfg p idx total je cmd :
  ~ In (Popen cmd) (process_iso_finally cfg p idx total je).
Proof.
  intros H. apply process_iso_finally_in in H. simpl in H. intuition discriminate.
Qed.

(** C5: when the process of an attempt is seen running after more than
    the configured number of minutes (a positive number), the supervisor
    sends terminate, sleeps one second, sends kill if the process is still
    alive, reports the timeout and goes straight to the cleanup: the job
    ends as timed out, nothing is spawned after the terminate, and no step
    of the job removes a file, whatever the delete option says. *)
Theorem timeout_abandons_job cfg iso_path current_index total_count je k
    minutes elapsed :
  selected_iso2god cfg <> "" ->
  binary_exists je = true ->
  (k < max_retries)%nat ->
  let legacy_mode := is_legacy_version (selected_iso2god cfg) in
  (forall j, (j < k)%nat ->
     snd (attempt cfg iso_path legacy_mode j (attempts je j)) = Retry) ->
  open_result (attempts je k) = None ->
  spawn_result (attempts je k) = None ->
  process_timeout cfg = Some minutes -> (0 < minutes)%Q ->
  In elapsed (polls (attempts je k)) -> (minutes * 60 < elapsed)%Q ->
  let job := process_iso cfg iso_path current_index total_count je in
  let closing := process_iso_finally cfg iso_path current_index total_count je in
  (exists before,
      fst job
      = before ++ [Popen (build_cmd cfg iso_path legacy_mode)]
        ++ ([Terminate; Sleep 1]
            ++ (if alive_after_terminate (attempts je k) then [Kill] else [])
            ++ [Status MsgTimedOut Error])
        ++ closing)
  /\ snd job = TimedOut
  /\ (forall cmd, ~ In (Popen cmd) closing)
  /\ (forall f, ~ In (Remove f) (fst job)).
Proof.
  intros Hsel Hbin Hk legacy_mode Hretry Ho Hs Hcfg Hpos Hin Hlt job closing.
  pose proof (timed_out_intro cfg _ _ _ Hcfg Hpos Hin Hlt) as Ht.
  pose proof (attempt_timed_out cfg iso_path legacy_mode k _ Ho Hs Ht) as Hat.
  destruct (retry_loop_returns_at max_retries cfg iso_path legacy_mode
              (attempts je) k _ _ 0%nat ltac:(lia) ltac:(lia)
              ltac:(intros; apply Hretry; lia) Hat) as [before Hloop].
  assert (Hjob : job = (([SetTitle (Py.splitext_root (Py.basename iso_path));
                          Status MsgFound Found]
                         ++ before ++ attempt_start cfg iso_path legacy_mode
                         ++ timeout_actions (attempts je k)) ++ closing, TimedOut)).
  { unfold job. rewrite process_iso_split. unfold process_iso_body.
    apply String.eqb_neq in Hsel. rewrite Hsel, Hbin. cbn [negb].
    fold legacy_mode. rewrite Hloop. cbn [fst snd].
    now rewrite <- !app_assoc. }
  assert (Hout : snd job = TimedOut) by now rewrite Hjob.
  split; [|split; [exact Hout|split]].
  - rewrite Hjob. cbn [fst]. unfold attempt_start, timeout_actions.
    exists ([SetTitle (Py.splitext_root (Py.basename iso_path)); Status MsgFound Found]
            ++ before ++ [OpenCheck iso_path]
            ++ (match process_timeout cfg with
                | None => [Status MsgInvalidTimeout Error]
                | Some _ => []
                end) ++ [Status MsgStarting Info]).
    rewrite <- !app_assoc. reflexivity.
  - intros cmd. apply process_iso_finally_no_popen.
  - intros f Hf. apply process_iso_remove in Hf. fold job in Hf. congruence.
Qed.

Lemma timeout_abandons_job_witness :
  let cfg := settings "linux-1.8.1" "4" 30 false in
  let je := job_of (fun k => match k with
                             | O => attempt_exits [] 1
                             | _ => attempt_hangs 1801 true
                             end) in
  delete_iso_var cfg = true
  /\ process_iso cfg "/in/game4.iso" 1 1 je
     = ([SetTitle "game4"; Status MsgFound Found;
         OpenCheck "/in/game4.iso"; Status MsgStarting Info;
         Popen ["iso2god/linux-1.8.1"; "/in/game4.iso"; "/out"; "-j"; "4"];
         Status (MsgFailedRetry 1 1) Error; Sleep 120;
         OpenCheck "/in/game4.iso"; Status MsgStarting Info;
         Popen ["iso2god/linux-1.8.1"; "/in/game4.iso"; "/out"; "-j"; "4"];
         Terminate; Sleep 1; Kill; Status MsgTimedOut Error;
         SetTitle "None"; DiscardInflight "/in/game4.iso"; TaskDone;
         Status MsgFtpNo Info; Status MsgReady Info],
        TimedOut)
  /\ forall f, ~ In (Remove f) (fst (process_iso cfg "/in/game4.iso" 1 1 je)).
Proof.
  intros cfg je.
  assert (Hsel : selected_iso2god cfg <> "") by discriminate.
  assert (Hretry : forall j, (j < 1)%nat ->
            snd (attempt cfg "/in/game4.iso" (is_legacy_version (selected_iso2god cfg))
                   j (attempts je j)) = Retry).
  { intros j Hj. assert (j = 0)%nat as -> by lia. reflexivity. }
  assert (Hk : (1 < max_retries)%nat) by (unfold max_retries; lia).
  assert (Hpos : (0 < 30)%Q) by reflexivity.
  assert (Hin : In 1801%Q (polls (attempts je 1%nat))) by (simpl; auto).
  assert (Hlt : (30 * 60 < 1801)%Q) by reflexivity.
  destruct (timeout_abandons_job cfg "/in/game4.iso" 1 1 je 1 30 1801
              Hsel eq_refl Hk Hretry eq_refl eq_refl eq_refl Hpos Hin Hlt)
    as (_ & _ & _ & Hrm).
  split; [reflexivity|]. split; [reflexivity|]. exact Hrm.
Defined.

(** ** The debounced watcher *)

Lemma Qlt_bool_false a b : (b <= a)%Q -> Qlt_bool a b = false.
Proof.
  intros H. destruct (Qlt_bool a b) eqn:E; [|reflexivity].
  apply Qlt_bool_iff in E. exfalso. eapply Qlt_not_le; eassumption.
Qed.

(** [on_created] once the guard and the debounce test have let the event
    through. *)
Lemma on_created_admits ev now s :
  watched_event (handler s) ev = true ->
  debounced (handler s) (src_path ev) now = false ->
  let p := src_path ev in
  let s' := on_created ev now s in
  last_event_time (handler s') = <[p := now]> (last_event_time (handler s))
  /\ (p ∉ processing (handler s) ->
      iso_queue s' = iso_queue s ++ [p]
      /\ processing (handler s') = {[p]} ∪ processing (handler s))
  /\ (p ∈ processing (handler s) ->
      iso_queue s' = iso_queue s
      /\ processing (handler s') = processing (handler s)).
Proof.
  intros Hw Hd p s'. subst s' p. unfold on_created. rewrite Hw, Hd.
  cbn [set_last_event_time processing].
  destruct (decide (src_path ev ∈ processing (handler s))) as [Hin|Hout]; cbn.
  - repeat split; tauto.
  - repeat split; tauto.
Qed.

(** C6: a sighting of a path less than [scan_delay] after the time
    recorded for that path changes nothing at all: nothing is queued and
    the recorded time stays. A sighting with no recorded time, or at
    least [scan_delay] after it, records the new time (and touches no
    other path's time), and queues the path and puts it in flight exactly
    when it was not in flight. A new handler has a delay of 2 seconds. *)
Theorem debounce_rule ev now s :
  watched_event (handler s) ev = true ->
  let h := handler s in
  let p := src_path ev in
  let s' := on_created ev now s in
  (forall last, last_event_time h !! p = Some last ->
                (now - last < scan_delay h)%Q -> s' = s)
  /\ (last_event_time h !! p = None
      \/ (exists last, last_event_time h !! p = Some last
                       /\ (scan_delay h <= now - last)%Q) ->
      last_event_time (handler s') !! p = Some now
      /\ (forall q, q <> p ->
            last_event_time (handler s') !! q = last_event_time h !! q)
      /\ (p ∉ processing h ->
          iso_queue s' = iso_queue s ++ [p]
          /\ processing (handler s') = {[p]} ∪ processing h)
      /\ (p ∈ processing h ->
          iso_queue s' = iso_queue s /\ processing (handler s') = processing h))
  /\ scan_delay IsoHandler_init = 2%Q.
Proof.
  intros Hw h p s'. split; [|split; [|reflexivity]].
  - intros last Hlast Hlt. subst s'. unfold on_created. rewrite Hw.
    unfold debounced. fold h p. rewrite Hlast.
    apply Qlt_bool_iff in Hlt. now rewrite Hlt.
  - intros Hout.
    assert (Hd : debounced h p now = false).
    { unfold debounced. destruct Hout as [->|(last & -> & Hle)]; [reflexivity|].
      now apply Qlt_bool_false. }
    destruct (on_created_admits ev now s Hw Hd) as (Ht & Hnew & Hold).
    fold s' h p in Ht, Hnew, Hold. rewrite Ht.
    split; [apply lookup_insert_eq|]. split; [|tauto].
    intros q Hq. now apply lookup_insert_ne.
Qed.

Lemma debounce_rule_witness :
  let p := "/in/game2.iso" in
  let s0 := start_watching "/in" (Some 2%Q) initial_system in
  let s1 := on_created (FileCreatedEvent p) 10 s0 in
  iso_queue s1 = [p]
  /\ on_created (FileCreatedEvent p) 11 s1 = s1.
Proof.
  intros p s0 s1.
  destruct (debounce_rule (FileCreatedEvent p) 10 s0 eq_refl) as (_ & Hout & _).
  destruct (Hout (or_introl (lookup_empty _))) as (Hrec & _ & Hnew & _).
  destruct (Hnew (not_elem_of_empty _)) as (Hq & Hp).
  split; [exact Hq|].
  assert (Hw : watched_event (handler s1) (FileCreatedEvent p) = true) by reflexivity.
  destruct (debounce_rule (FileCreatedEvent p) 11 s1 Hw) as (Hin & _ & _).
  apply (Hin 10%Q Hrec). reflexivity.
Defined.

(** ** The effect of a job on the shared state *)

Lemma exec_app a b s : exec (a ++ b) s = exec b (exec a s).
Proof. apply fold_left_app. Qed.

Lemma exec_silent acts s : Forall silent acts -> exec acts s = s.
Proof.
  intros H. induction H as [|a acts Ha _ IH]; [reflexivity|].
  unfold exec in *. cbn [fold_left].
  replace (run_action s a) with s; [exact IH|].
  destruct a; simpl in Ha; try contradiction; reflexivity.
Qed.

Lemma attempt_silent cfg p legacy k e :
  Forall silent (fst (attempt cfg p legacy k e)).
Proof.
  unfold attempt, prepend, attempt_start, on_permission_error, on_success.
  repeat case_match; simpl; repeat constructor.
Qed.

Lemma retry_loop_silent n cfg p legacy env : forall k,
  Forall silent (fst (retry_loop n cfg p legacy k env)).
Proof.
  induction n as [|n IH]; intros k; simpl; [constructor|].
  pose proof (attempt_silent cfg p legacy k (env k)) as Ha.
  destruct (attempt cfg p legacy k (env k)) as [acts [|o]]; simpl in *; [|exact Ha].
  specialize (IH (S k)).
  destruct (retry_loop n cfg p legacy (S k) env) as [more o]. simpl in *.
  apply Forall_app. split; assumption.
Qed.

(** The [try] part sets the title first and then leaves the state alone. *)
Lemma process_iso_body_shape cfg p je :
  exists rest,
    fst (process_iso_body cfg p je)
    = SetTitle (Py.splitext_root (Py.basename p)) :: rest
    /\ Forall silent rest.
Proof.
  unfold process_iso_body.
  pose proof (retry_loop_silent max_retries cfg p
                (is_legacy_version (selected_iso2god cfg)) (attempts je) 0) as Hl.
  destruct (retry_loop _ _ _ _ _ _) as [acts o]. simpl in Hl.
  destruct (String.eqb _ _); [|destruct (negb _)]; simpl;
    eexists; (split; [reflexivity|]); repeat constructor; assumption.
Qed.

(** The [finally] part starts with the three cleanup steps. *)
Lemma process_iso_finally_shape cfg p idx total je :
  exists rest,
    process_iso_finally cfg p idx total je
    = [SetTitle "None"; DiscardInflight p; TaskDone] ++ rest
    /\ Forall silent rest.
Proof.
  unfold process_iso_finally. eexists. split; [reflexivity|].
  destruct (use_ftp cfg), (idx =? total)%Z, (ftp_raises je); simpl;
    repeat constructor.
Qed.

Lemma discard_not_in (p : string) (ps : gset string) : p ∉ ps -> ps = ps ∖ {[p]}.
Proof.
  intros Hp. apply set_eq. intros x. rewrite elem_of_difference, elem_of_singleton.
  split; [|tauto]. intros Hx. split; [exact Hx|]. intros ->. auto.
Qed.

(** What running a whole job leaves behind. *)
Lemma exec_process_iso cfg p idx total je s :
  let s' := exec (fst (process_iso cfg p idx total je)) s in
  iso_queue s' = iso_queue s
  /\ processing (handler s') = processing (handler s) ∖ {[p]}
  /\ last_event_time (handler s') = last_event_time (handler s)
  /\ watcher s' = watcher s
  /\ is_processing s' = is_processing s
  /\ current_job s' = current_job s
  /\ game_title_var s' = "None"
  /\ tasks_done s' = S (tasks_done s).
Proof.
  rewrite process_iso_split. cbn [fst].
  destruct (process_iso_body_shape cfg p je) as (rest & -> & Hrest).
  destruct (process_iso_finally_shape cfg p idx total je) as (tail & -> & Htail).
  cbn zeta. rewrite !exec_app.
  rewrite (exec_silent tail) by assumption.
  change (exec (SetTitle ?t :: rest) s) with (exec rest (set_title t s)).
  rewrite (exec_silent rest) by assumption.
  unfold exec. cbn [fold_left run_action].
  cbn [set_title handler].
  destruct (decide (p ∈ processing (handler s))) as [Hin|Hout]; cbn.
  - repeat split; reflexivity.
  - repeat split; try reflexivity. now apply discard_not_in.
Qed.

(** ** One job per path while a handler lives *)

Lemma on_created_admits_path ev now s : admits s (on_created ev now s).
Proof.
  unfold on_created.
  destruct (watched_event _ _); [|left; repeat split].
  destruct (debounced _ _ _); [left; repeat split|].
  cbn [set_last_event_time processing].
  destruct (decide (src_path ev ∈ processing (handler s))) as [Hin|Hout].
  - left. repeat split.
  - right. exists (src_path ev). repeat split. exact Hout.
Qed.

Lemma check_entry_admits s entry : admits s (check_entry s entry).
Proof.
  unfold check_entry. destruct entry as [file now].
  destruct (Py.endswith _ _); [|left; repeat split].
  destruct (_ !! _); [left; repeat split|].
  apply (on_created_admits_path _ now
           (set_watcher {| path := path (watcher s);
                           _last_check := <[Py.path_join (path (watcher s)) file := now]>
                                            (_last_check (watcher s)) |} s)).
Qed.

Section Preserved.

Variable P : system -> Prop.
Hypothesis P_admits : forall s s', admits s s' -> P s -> P s'.

Lemma fold_check_entry_preserves entries : forall s,
  P s -> P (fold_left check_entry entries s).
Proof.
  induction entries as [|e entries IH]; intros s Hs; [exact Hs|].
  cbn [fold_left]. apply IH. eapply P_admits; [apply check_entry_admits | exact Hs].
Qed.

Lemma check_directory_preserves listing s : P s -> P (check_directory listing s).
Proof.
  intros Hs. destruct listing as [entries|]; [|exact Hs].
  unfold check_directory.
  eapply P_admits; [|apply fold_check_entry_preserves; exact Hs].
  left. repeat split.
Qed.

End Preserved.

Lemma session_ok_admits s s' : admits s s' -> session_ok s -> session_ok s'.
Proof.
  intros [(Hq & Hp & Hc)|(p & Hout & Hq & Hp & Hc)] (Hnd & Hsub & Hcur);
    unfold session_ok.
  all: rewrite Hq; rewrite Hp; rewrite Hc.
  - auto.
  - split; [|split].
    + apply NoDup_app. split; [exact Hnd|]. split; [|apply NoDup_singleton].
      intros x Hx Hx'%list_elem_of_singleton. subst x. auto.
    + intros x [Hx| ->%list_elem_of_singleton]%elem_of_app.
      * apply elem_of_union_r. auto.
      * apply elem_of_union_l. now apply elem_of_singleton.
    + intros c Hcc. destruct (Hcur c Hcc) as [Hc1 Hc2].
      split; [now apply elem_of_union_r|].
      intros [Hx| ->%list_elem_of_singleton]%elem_of_app; auto.
Qed.


Lemma get_inv s iso_path s1 :
  get s = Some (iso_path, s1) ->
  exists rest, iso_queue s = iso_path :: rest
               /\ s1 = set_current_job (Some iso_path) (set_queue rest s).
Proof.
  unfold get. destruct (iso_queue s) as [|x rest]; [discriminate|].
  intros [= <- <-]. eauto.
Qed.

Lemma session_ok_step s s' : step s s' -> session_ok s -> session_ok s'.
Proof.
  intros Hstep Hok. destruct Hstep as
    [listing s | ev now s | iso_path s1 s Hidle Hget
     | cfg iso_path idx total je s Hcur | s | s].
  - apply check_directory_preserves; [apply session_ok_admits | exact Hok].
  - eapply session_ok_admits; [apply on_created_admits_path | exact Hok].
  - destruct (get_inv _ _ _ Hget) as (rest & Hq & ->).
    destruct Hok as (Hnd & Hsub & _). rewrite Hq in Hnd, Hsub.
    apply NoDup_cons in Hnd as [Hnot Hnd].
    unfold session_ok; cbn. split; [exact Hnd|]. split.
    + intros x Hx. apply Hsub. now apply list_elem_of_further.
    + intros x [= <-]. split; [apply Hsub; apply list_elem_of_here | exact Hnot].
  - destruct (exec_process_iso cfg iso_path idx total je s)
      as (Hq & Hp & _ & _ & _ & _ & _ & _).
    destruct Hok as (Hnd & Hsub & Hc). destruct (Hc _ Hcur) as [_ Hnq].
    unfold session_ok; cbn. rewrite Hq, Hp. split; [exact Hnd|]. split.
    + intros x Hx. apply elem_of_difference. split; [auto|].
      intros Heq%elem_of_singleton. subst x. auto.
    + discriminate.
  - destruct Hok as (_ & _ & Hc). unfold session_ok; cbn.
    split; [constructor|]. split; [intros x Hx%elem_of_nil; contradiction|].
    intros x Hx. split; [apply (Hc x Hx) | apply not_elem_of_nil].
  - exact Hok.
Qed.


Lemma steps_preserve (P : system -> Prop) :
  (forall s s', step s s' -> P s -> P s') ->
  forall s s', steps step s s' -> P s -> P s'.
Proof.
  intros Hp s s' Hsteps. induction Hsteps; auto.
  intros H0. eapply Hp; eauto.
Qed.

Lemma session_ok_jobs_for s p : session_ok s -> (jobs_for p s <= 1)%nat.
Proof.
  intros (Hnd & _ & Hcur). unfold jobs_for.
  apply NoDup_ListNoDup in Hnd.
  pose proof (proj1 (List.NoDup_count_occ string_dec (iso_queue s)) Hnd p) as Hc.
  destruct (decide (current_job s = Some p)) as [Heq|_]; [|lia].
  destruct (Hcur p Heq) as [_ Hnq].
  rewrite (proj1 (count_occ_not_In string_dec (iso_queue s) p)); [lia|].
  intros Hx. apply Hnq. now apply list_elem_of_In.
Qed.

(** A start of the watcher on an empty queue, with no job running, gives
    a consistent state; the first start is one. *)
Lemma session_ok_start watch_dir delay s :
  iso_queue s = [] -> current_job s = None ->
  session_ok (start_watching watch_dir delay s).
Proof.
  intros Hq Hc. unfold session_ok; cbn. rewrite Hq, Hc. split; [constructor|].
  split; [intros p Hp%elem_of_nil; contradiction | discriminate].
Qed.

Lemma session_ok_first_start watch_dir delay :
  session_ok (start_watching watch_dir delay initial_system).
Proof. now apply session_ok_start. Qed.

(** Enqueueing a path that is in flight does nothing to the queue or to
    the in-flight set. *)
Lemma on_created_in_flight ev now s :
  src_path ev ∈ processing (handler s) ->
  let s' := on_created ev now s in
  iso_queue s' = iso_queue s /\ processing (handler s') = processing (handler s).
Proof.
  intros Hin. unfold on_created.
  destruct (watched_event _ _); [|auto].
  destruct (debounced _ _ _); [auto|].
  cbn [set_last_event_time processing].
  destruct (decide (src_path ev ∈ processing (handler s))); [cbn; auto|contradiction].
Qed.

(** C1, as amended: while one handler lives (polls, sightings, the
    coordinator taking and finishing jobs, the queue being cleared,
    watching being stopped), from a state where queue and in-flight set
    agree, they keep agreeing: every path has at most one job queued or
    being processed, and a sighting of a path that is in flight leaves the
    queue and the in-flight set as they are. A start of the watcher gives
    such a state when the queue is empty and no job is running, as at the
    first start. *)
Theorem one_job_per_path_in_session s s' :
  session_ok s ->
  steps step s s' ->
  session_ok s'
  /\ (forall p, (jobs_for p s' <= 1)%nat)
  /\ (forall p, p ∈ processing (handler s') ->
                (count_occ string_dec (iso_queue s') p <= 1)%nat)
  /\ (forall ev now, src_path ev ∈ processing (handler s') ->
        iso_queue (on_created ev now s') = iso_queue s'
        /\ processing (handler (on_created ev now s')) = processing (handler s'))
  /\ (forall watch_dir delay s0,
        iso_queue s0 = [] -> current_job s0 = None ->
        session_ok (start_watching watch_dir delay s0))
  /\ (forall watch_dir delay,
        session_ok (start_watching watch_dir delay initial_system)).
Proof.
  intros Hok Hsteps.
  assert (Hok' : session_ok s').
  { revert Hok. apply (steps_preserve session_ok session_ok_step _ _ Hsteps). }
  split; [exact Hok'|]. split; [|split; [|split; [|split]]].
  - intros p. now apply session_ok_jobs_for.
  - intros p _. pose proof (session_ok_jobs_for s' p Hok') as H.
    unfold jobs_for in H. lia.
  - intros ev now Hin. now apply on_created_in_flight.
  - intros watch_dir delay s0. apply session_ok_start.
  - apply session_ok_first_start.
Qed.

Lemma one_job_per_path_in_session_witness :
  let s0 := start_watching "/in" (Some 2%Q) initial_system in
  let s1 := check_directory (Some [("game2.iso", 10%Q); ("notes.txt", 10%Q)]) s0 in
  let s2 := check_directory (Some [("game2.iso", 11%Q); ("GAME5.ISO", 11%Q)]) s1 in
  iso_queue s2 = ["/in/game2.iso"; "/in/GAME5.ISO"]
  /\ (jobs_for "/in/game2.iso" s2 <= 1)%nat.
Proof.
  intros s0 s1 s2.
  assert (Hrun : steps step s0 s2).
  { eapply steps_next; [eapply steps_next; [apply steps_refl|]|]; apply step_poll. }
  destruct (one_job_per_path_in_session s0 s2 (session_ok_first_start _ _) Hrun)
    as (_ & Hjobs & _).
  split; [vm_compute; reflexivity | apply Hjobs].
Defined.

(** C1 as stated fails: every start of the watcher makes a handler with an
    empty in-flight set on the queue that is kept. A path queued before
    the watcher is stopped is queued again after the next start, while it
    is in the in-flight set: two jobs for one path. *)
Lemma restart_queues_path_twice :
  let p := "/in/game2.iso" in
  let s1 := check_directory (Some [("game2.iso", 10%Q)])
              (start_watching "/in" (Some 2%Q) initial_system) in
  let s2 := start_watching "/in" (Some 2%Q) (stop_watching s1) in
  let s3 := check_directory (Some [("game2.iso", 20%Q)]) s2 in
  steps step_restart initial_system s3
  /\ iso_queue s1 = [p]
  /\ iso_queue s3 = [p; p]
  /\ p ∈ processing (handler s3)
  /\ jobs_for p s3 = 2%nat.
Proof.
  intros p s1 s2 s3. split.
  - eapply steps_next; [eapply steps_next; [eapply steps_next;
      [eapply steps_next; [eapply steps_next; [apply steps_refl|]|]|]|]|].
    + apply restart_start.
    + apply restart_step, step_poll.
    + apply restart_step, step_stop.
    + apply restart_start.
    + apply restart_step, step_poll.
  - split; [vm_compute; reflexivity|]. split; [vm_compute; reflexivity|].
    split; [|vm_compute; reflexivity].
    apply (bool_decide_unpack (p ∈ processing (handler s3))). vm_compute. exact I.
Qed.

(** ** Paths dropped by [clear_queue] *)



(** ** The coordinator *)






(** One turn of the coordinator on a queue that is not empty. *)
Lemma process_queue_turn_spec cfg je s p rest :
  is_processing s = true ->
  iso_queue s = p :: rest ->
  let s' := fst (process_queue_turn cfg je s) in
  snd (process_queue_turn cfg je s)
  = fst (process_iso cfg p 1 (Z.of_nat (length (p :: rest))) je)
  /\ iso_queue s' = rest
  /\ is_processing s' = true
  /\ current_job s' = None
  /\ game_title_var s' = "None"
  /\ tasks_done s' = S (tasks_done s)
  /\ processing (handler s') = processing (handler s) ∖ {[p]}.
Proof.
  intros Hon Hq. unfold process_queue_turn, get. rewrite Hon, Hq.
  destruct (Z.eqb_spec (Z.of_nat (length (p :: rest))) 0) as [Hz|_];
    [simpl in Hz; lia|].
  replace (Z.of_nat (length (p :: rest)) - Z.of_nat (length (p :: rest)) + 1)%Z
    with 1%Z by lia.
  set (s1 := set_current_job (Some p) (set_queue rest s)).
  destruct (exec_process_iso cfg p 1 (Z.of_nat (length (p :: rest))) je s1)
    as (H1 & H2 & _ & _ & H5 & _ & H7 & H8).
  set (acts := fst (process_iso cfg p 1 (Z.of_nat (length (p :: rest))) je)) in *.
  cbn [fst snd set_current_job iso_queue is_processing current_job
       game_title_var tasks_done handler].
  rewrite H1, H2, H5, H7, H8. subst s1. cbn. auto 10.
Qed.

(** The coordinator left alone takes the queued paths in order, one job
    each, whatever the jobs before did. *)
Lemma drain_spec cfg jes : forall s,
  is_processing s = true ->
  length jes = length (iso_queue s) ->
  snd (drain cfg jes s) = drain_traces cfg (iso_queue s) jes
  /\ iso_queue (fst (drain cfg jes s)) = []
  /\ tasks_done (fst (drain cfg jes s)) = (tasks_done s + length jes)%nat
  /\ processing (handler (fst (drain cfg jes s)))
     = processing (handler s) ∖ list_to_set (iso_queue s).
Proof.
  induction jes as [|je jes IH]; intros s Hon Hlen.
  - destruct (iso_queue s) as [|p rest] eqn:Hq; [|discriminate].
    cbn. rewrite Hq. repeat split; auto.
    apply set_eq. intros x. rewrite elem_of_difference, elem_of_empty. tauto.
  - destruct (iso_queue s) as [|p rest] eqn:Hq; [discriminate|].
    destruct (process_queue_turn_spec cfg je s p rest Hon Hq)
      as (Hacts & Hq' & Hon' & _ & _ & Hdone & Hproc).
    cbn [drain]. destruct (process_queue_turn cfg je s) as [s1 acts].
    cbn [fst snd] in *.
    assert (Hlen' : length jes = length (iso_queue s1)).
    { rewrite Hq'. simpl in Hlen. lia. }
    destruct (IH s1 Hon' Hlen') as (Htr & Hend & Hcount & Hgone).
    destruct (drain cfg jes s1) as [s2 traces]. cbn [fst snd] in *.
    split; [cbn [drain_traces]; now rewrite Hacts, Htr, Hq'|].
    split; [exact Hend|]. split; [rewrite Hcount, Hdone; simpl; lia|].
    rewrite Hgone, Hproc, Hq'. apply set_eq. intros x.
    rewrite !elem_of_difference, list_to_set_cons, elem_of_union, elem_of_singleton.
    tauto.
Qed.

(** C9: whatever a job meets (any settings, any behaviour of the file
    system, of the tool and of the upload), its trace is the [try] part
    followed by the three cleanup steps, and after it the title shows
    "None", the path is out of the in-flight set (no other entry is
    touched), the queue item is acknowledged and the queue is as it was.
    The coordinator goes on: left alone with a queue it runs one job per
    queued path, in order, each with the trace that job has on its own,
    until the queue is empty. *)
Theorem cleanup_always_runs cfg iso_path current_index total_count je s :
  let job := process_iso cfg iso_path current_index total_count je in
  let s' := exec (fst job) s in
  (exists tail,
      fst job = fst (process_iso_body cfg iso_path je)
                ++ [SetTitle "None"; DiscardInflight iso_path; TaskDone] ++ tail
      /\ Forall silent tail)
  /\ game_title_var s' = "None"
  /\ (iso_path ∉ processing (handler s'))
  /\ processing (handler s') = processing (handler s) ∖ {[iso_path]}
  /\ tasks_done s' = S (tasks_done s)
  /\ iso_queue s' = iso_queue s
  /\ (forall jes s0,
        is_processing s0 = true ->
        length jes = length (iso_queue s0) ->
        snd (drain cfg jes s0) = drain_traces cfg (iso_queue s0) jes
        /\ iso_queue (fst (drain cfg jes s0)) = []
        /\ tasks_done (fst (drain cfg jes s0)) = (tasks_done s0 + length jes)%nat
        /\ processing (handler (fst (drain cfg jes s0)))
           = processing (handler s0) ∖ list_to_set (iso_queue s0)).
Proof.
  intros job s'.
  destruct (exec_process_iso cfg iso_path current_index total_count je s)
    as (Hq & Hp & _ & _ & _ & _ & Ht & Hd).
  fold job in Hq, Hp, Ht, Hd. fold s' in Hq, Hp, Ht, Hd.
  split.
  - destruct (process_iso_finally_shape cfg iso_path current_index total_count je)
      as (tail & Hf & Htail).
    exists tail. split; [|exact Htail].
    unfold job. rewrite process_iso_split. cbn [fst]. now rewrite Hf.
  - split; [exact Ht|]. split; [|split; [exact Hp|split; [exact Hd|split; [exact Hq|]]]].
    + rewrite Hp. intros [_ Hn]%elem_of_difference. apply Hn.
      now apply elem_of_singleton.
    + intros jes s0. apply drain_spec.
Qed.

(** The four ways a job can end that C9 names, each followed by the same
    cleanup. *)
Example job_outcomes :
  let cfg := settings "linux-1.8.1" "4" 30 false in
  let finish := [SetTitle "None"; DiscardInflight "/in/a.iso"; TaskDone;
                 Status MsgFtpNo Info; Status MsgReady Info] in
  let ends_with (je : job_env) (o : outcome) :=
    snd (process_iso cfg "/in/a.iso" 1 1 je) = o
    /\ fst (process_iso cfg "/in/a.iso" 1 1 je)
       = fst (process_iso_body cfg "/in/a.iso" je) ++ finish in
  ends_with (job_of (fun _ => attempt_exits [] 0)) Converted
  /\ ends_with (job_of (fun _ => attempt_exits [] 3)) (FailedExhausted 3)
  /\ ends_with (job_of (fun _ => attempt_hangs 1801 false)) TimedOut
  /\ ends_with (job_of (fun _ =>
        {| open_result := Some OtherException; spawn_result := None;
           stdout_lines := []; stderr_lines := []; polls := [];
           alive_after_terminate := false; return_code := 0;
           still_processing := true; remove_result := None |})) UnexpectedError.
Proof.
  intros cfg finish ends_with. unfold ends_with.
  repeat split; vm_compute; reflexivity.
Qed.

(** ** When the upload starts *)



(** Two jobs queued, upload enabled: the traces of the drain. *)
Example upload_two_jobs :
  let cfg := settings "linux-1.8.1" "4" 0 true in
  let s := set_queue ["/in/a.iso"; "/in/b.iso"]
             (start_watching "/in" (Some 2%Q) initial_system) in
  let ok := job_of (fun _ => attempt_exits [] 0) in
  map uploads (snd (drain cfg [ok; ok] s)) = [0; 1]%nat
  /\ map last (snd (drain cfg [ok; ok] s))
     = [Some (Status MsgReady Info); Some (Status MsgReady Info)]
  /\ tasks_done (fst (drain cfg [ok; ok] s)) = 2%nat.
Proof.
  intros cfg s ok. repeat split; vm_compute; reflexivity.
Qed.


(** ** The upload session *)

(** C8: the host the session connects to is the literal "192.168.1.28";
    the host entry of the settings is never read, so changing it changes
    nothing. The rest is as described: port 21 unless one is entered, the
    login with the entered user and password, the root
    [<drive>/Content/0000000000000000], [mkd] with its errors ignored,
    [cwd] into each directory and [cwd("..")] after each subdirectory. *)
Theorem upload_ignores_configured_host :
  (forall raises fs output_dir tree host,
      send_over_ftp raises (set_ftp_ip host fs) output_dir tree
      = send_over_ftp raises fs output_dir tree)
  /\ (let fs := {| ftp_ip := "10.0.0.5"; ftp_port := "Port (default: 21)";
                   ftp_user := "xbox"; ftp_pass := "xbox";
                   drv_field := "Drive Folder (default: Hdd1)" |} in
      let tree := Listing [("a.bin", None);
                           ("sub", Some (Listing [("b.bin", None)]))] in
      send_over_ftp (fun _ => false) fs "/out" tree
      = ([Connect "192.168.1.28" 21; Login "xbox" "xbox";
          Mkd "Hdd1/Content/0000000000000000";
          Cwd "Hdd1/Content/0000000000000000";
          Storbinary "/out/a.bin" "a.bin";
          Mkd "sub"; Cwd "sub"; Storbinary "/out/sub/b.bin" "b.bin";
          Say "FTP Transfer Complete!"; Cwd "..";
          Say "FTP Transfer Complete!"], false)).
Proof.
  split; [|reflexivity].
  intros raises fs output_dir tree host. reflexivity.
Qed.

(** * Further properties of the supervisor *)

Lemma spawned_app a b : spawned (a ++ b) = spawned a ++ spawned b.
Proof. apply flat_map_app. Qed.

Lemma sleeps_app a b : sleeps (a ++ b) = sleeps a ++ sleeps b.
Proof. apply flat_map_app. Qed.

Lemma removed_app a b : removed (a ++ b) = removed a ++ removed b.
Proof. apply flat_map_app. Qed.

(** The third attempt never asks for another one. *)
Lemma attempt_last_returns cfg p legacy k e :
  (max_retries - 1 <= k)%nat -> snd (attempt cfg p legacy k e) <> Retry.
Proof.
  intros Hk. unfold attempt, prepend, on_permission_error.
  rewrite legacy_guard_false.
  assert (Hlt : (k <? max_retries - 1)%nat = false) by (apply Nat.ltb_ge; exact Hk).
  rewrite Hlt. repeat case_match; simpl; discriminate.
Qed.

Lemma attempt_never_exhausted cfg p legacy k e :
  snd (attempt cfg p legacy k e) <> Return LoopExhausted.
Proof.
  unfold attempt, prepend, on_permission_error.
  repeat case_match; simpl; discriminate.
Qed.

(** What one attempt spawns and how long it sleeps. *)
Lemma attempt_budget cfg p legacy k e :
  (length (spawned (fst (attempt cfg p legacy k e))) <= 1)%nat
  /\ (snd (attempt cfg p legacy k e) = Retry ->
      sleeps (fst (attempt cfg p legacy k e)) = [retry_delay])
  /\ (snd (attempt cfg p legacy k e) <> Retry ->
      sleeps (fst (attempt cfg p legacy k e)) = []
      \/ sleeps (fst (attempt cfg p legacy k e)) = [1%Q]).
Proof.
  unfold attempt, prepend, attempt_start, on_permission_error, on_success.
  rewrite legacy_guard_false.
  repeat case_match; cbn [fst snd]; rewrite ?spawned_app, ?sleeps_app; simpl;
    (split; [lia|split; intros Hv; try discriminate; try (now elim Hv); auto]).
Qed.

Lemma retry_loop_S n cfg p legacy k env :
  retry_loop (S n) cfg p legacy k env
  = match attempt cfg p legacy k (env k) with
    | (acts, Return o) => (acts, o)
    | (acts, Retry) =>
        let (more, o) := retry_loop n cfg p legacy (S k) env in (acts ++ more, o)
    end.
Proof. reflexivity. Qed.

Lemma retry_loop_budget cfg p legacy env : forall n k0,
  (k0 + S n = max_retries)%nat ->
  exists retries tail,
    (retries <= n)%nat
    /\ sleeps (fst (retry_loop (S n) cfg p legacy k0 env))
       = repeat retry_delay retries ++ tail
    /\ (tail = [] \/ tail = [1%Q])
    /\ (length (spawned (fst (retry_loop (S n) cfg p legacy k0 env)))
        <= S retries)%nat
    /\ snd (retry_loop (S n) cfg p legacy k0 env) <> LoopExhausted.
Proof.
  induction n as [|n IH]; intros k0 Hk.
  - cbn [retry_loop].
    destruct (attempt_budget cfg p legacy k0 (env k0)) as (Hsp & _ & Hret).
    pose proof (attempt_last_returns cfg p legacy k0 (env k0)) as Hlast.
    pose proof (attempt_never_exhausted cfg p legacy k0 (env k0)) as Hne.
    destruct (attempt cfg p legacy k0 (env k0)) as [acts [|o]]; cbn [fst snd] in *.
    + exfalso. apply Hlast; [unfold max_retries in *; lia | reflexivity].
    + exists 0%nat, (sleeps acts). split; [lia|]. split; [reflexivity|].
      split; [apply Hret; discriminate|]. split; [exact Hsp | congruence].
  - rewrite retry_loop_S.
    destruct (attempt_budget cfg p legacy k0 (env k0)) as (Hsp & Hretry & Hret).
    pose proof (attempt_never_exhausted cfg p legacy k0 (env k0)) as Hne.
    destruct (attempt cfg p legacy k0 (env k0)) as [acts [|o]]; cbn [fst snd] in *.
    + destruct (IH (S k0) ltac:(lia)) as (r & tail & Hr & Hs & Ht & Hc & Ho).
      destruct (retry_loop (S n) cfg p legacy (S k0) env) as [more o].
      cbv beta iota. cbn [fst snd] in *.
      exists (S r), tail.
      rewrite sleeps_app, spawned_app, length_app, Hs, Hretry by reflexivity.
      split; [lia|]. split; [reflexivity|]. split; [exact Ht|].
      split; [lia | exact Ho].
    + exists 0%nat, (sleeps acts). split; [lia|]. split; [reflexivity|].
      split; [apply Hret; discriminate|]. split; [exact Hsp | congruence].
Qed.

Lemma process_iso_body_budget cfg p je :
  exists retries tail,
    (retries <= 2)%nat
    /\ sleeps (fst (process_iso_body cfg p je)) = repeat retry_delay retries ++ tail
    /\ (tail = [] \/ tail = [1%Q])
    /\ (length (spawned (fst (process_iso_body cfg p je))) <= S retries)%nat
    /\ snd (process_iso_body cfg p je) <> LoopExhausted.
Proof.
  unfold process_iso_body.
  destruct (String.eqb _ _);
    [exists 0%nat, []; simpl; split; [lia|]; split; [reflexivity|];
     split; [now left|]; split; [lia | discriminate]|].
  destruct (negb _);
    [exists 0%nat, []; simpl; split; [lia|]; split; [reflexivity|];
     split; [now left|]; split; [lia | discriminate]|].
  destruct (retry_loop_budget cfg p (is_legacy_version (selected_iso2god cfg))
              (attempts je) 2 0 eq_refl) as (r & tail & Hr & Hs & Ht & Hc & Ho).
  change (S 2) with max_retries in *.
  destruct (retry_loop max_retries _ _ _ _ _) as [acts o]. cbn [fst snd] in *.
  exists r, tail. rewrite sleeps_app, spawned_app. simpl. auto 10.
Qed.

Lemma process_iso_finally_quiet cfg p idx total je :
  sleeps (process_iso_finally cfg p idx total je) = []
  /\ spawned (process_iso_finally cfg p idx total je) = []
  /\ removed (process_iso_finally cfg p idx total je) = [].
Proof.
  unfold process_iso_finally.
  destruct (use_ftp cfg), (idx =? total)%Z, (ftp_raises je); simpl; auto.
Qed.

(** X1: whatever the file system and the tool do, a job starts the tool at
    most three times and sleeps the 120 second retry delay at most twice
    (so at most 240 seconds of retry delay), followed by at most the one
    second sleep of a timeout; with r retries the tool was started at
    most r + 1 times. *)
Theorem job_retry_budget cfg iso_path current_index total_count je :
  let trace := fst (process_iso cfg iso_path current_index total_count je) in
  exists retries tail,
    (retries <= 2)%nat
    /\ sleeps trace = repeat retry_delay retries ++ tail
    /\ (tail = [] \/ tail = [1%Q])
    /\ (length (spawned trace) <= S retries)%nat
    /\ (length (spawned trace) <= max_retries)%nat.
Proof.
  intros trace. subst trace. rewrite process_iso_split. cbn [fst].
  destruct (process_iso_body_budget cfg iso_path je)
    as (r & tail & Hr & Hs & Ht & Hc & _).
  destruct (process_iso_finally_quiet cfg iso_path current_index total_count je)
    as (Hfs & Hfp & _).
  exists r, tail. rewrite sleeps_app, spawned_app, Hfs, Hfp, !app_nil_r.
  unfold max_retries. split; [exact Hr|]. split; [exact Hs|]. split; [exact Ht|].
  split; lia.
Qed.

(** X2: the retry loop never runs out without a return: no job ends by
    leaving the [while] loop at its test after three attempts. A job ends
    by one of the two early returns of the check of the selected binary,
    or by a return inside the loop, because the third attempt never asks
    for another one. *)
Theorem job_never_falls_through cfg iso_path current_index total_count je :
  snd (process_iso cfg iso_path current_index total_count je) <> LoopExhausted.
Proof.
  rewrite process_iso_split. cbn [snd].
  destruct (process_iso_body_budget cfg iso_path je) as (_ & _ & _ & _ & _ & _ & H).
  exact H.
Qed.

Lemma attempt_with_output cfg p legacy k out err e :
  attempt cfg p legacy k (with_output out err e) = attempt cfg p legacy k e.
Proof.
  unfold attempt. rewrite !legacy_guard_false. reflexivity.
Qed.

Lemma retry_loop_ext cfg p legacy env env' :
  (forall k, attempt cfg p legacy k (env k) = attempt cfg p legacy k (env' k)) ->
  forall n k0, retry_loop n cfg p legacy k0 env = retry_loop n cfg p legacy k0 env'.
Proof.
  intros Hext. induction n as [|n IH]; intros k0; [reflexivity|].
  rewrite !retry_loop_S, Hext, IH. reflexivity.
Qed.

(** X3: status lines apart, what the tool writes on its output and error
    streams has no effect on what a job does: the steps that are not
    status lines (title, file check, spawn with its command line, sleeps,
    terminate, kill, removal, cleanup, upload) and the outcome of the job
    are the same for any other text on the two pipes. The text reaches
    the status area only: through the reader threads, and through the
    elapsed-time line of the wait loop, which quotes the last output
    line. In particular a line such as "being used by another process"
    on the error stream does not turn the attempt into a file-lock retry
    (the exception is raised in the reader thread), and the legacy marker
    triggers nothing. *)
Theorem job_ignores_tool_output cfg iso_path current_index total_count je out err :
  let job := process_iso cfg iso_path current_index total_count je in
  let job' := process_iso cfg iso_path current_index total_count
                (with_outputs out err je) in
  without_status (fst job') = without_status (fst job)
  /\ snd job' = snd job.
Proof.
  intros job job'.
  assert (Hloop : forall n k0,
    retry_loop n cfg iso_path (is_legacy_version (selected_iso2god cfg)) k0
      (attempts (with_outputs out err je))
    = retry_loop n cfg iso_path (is_legacy_version (selected_iso2god cfg)) k0
        (attempts je)).
  { apply retry_loop_ext. intros k. apply attempt_with_output. }
  subst job job'. unfold process_iso, process_iso_body, process_iso_finally.
  cbn [with_outputs binary_exists ftp_raises] in *.
  rewrite Hloop. split; reflexivity.
Qed.

Lemma attempt_removed cfg p legacy k e :
  removed (fst (attempt cfg p legacy k e)) = []
  \/ (removed (fst (attempt cfg p legacy k e)) = [p]
      /\ snd (attempt cfg p legacy k e) = Return Converted
      /\ delete_iso_var cfg = true).
Proof.
  unfold attempt, prepend, attempt_start, on_permission_error, on_success.
  destruct (delete_iso_var cfg);
    repeat case_match; cbn [fst snd]; rewrite ?removed_app; simpl; auto.
Qed.

Lemma retry_loop_removed cfg p legacy env : forall n k0,
  removed (fst (retry_loop n cfg p legacy k0 env)) = []
  \/ (removed (fst (retry_loop n cfg p legacy k0 env)) = [p]
      /\ snd (retry_loop n cfg p legacy k0 env) = Converted
      /\ delete_iso_var cfg = true).
Proof.
  induction n as [|n IH]; intros k0; [now left|].
  rewrite retry_loop_S.
  pose proof (attempt_removed cfg p legacy k0 (env k0)) as Ha.
  destruct (attempt cfg p legacy k0 (env k0)) as [acts [|o]]; cbn [fst snd] in *.
  - destruct Ha as [Ha|(_ & Hv & _)]; [|discriminate].
    specialize (IH (S k0)).
    destruct (retry_loop n cfg p legacy (S k0) env) as [more o].
    cbn [fst snd] in *. rewrite removed_app, Ha. exact IH.
  - destruct Ha as [Ha|(Ha & Hv & Hd)]; [now left|].
    right. split; [exact Ha|]. split; [congruence | exact Hd].
Qed.

(** X4: a job removes at most one file, and only the source file of that
    job, and only when the job ends converted with the delete option on:
    a job that is skipped, times out or meets an error removes nothing. *)
Theorem job_removes_only_its_source cfg iso_path current_index total_count je :
  let job := process_iso cfg iso_path current_index total_count je in
  removed (fst job) = []
  \/ (removed (fst job) = [iso_path]
      /\ snd job = Converted
      /\ delete_iso_var cfg = true).
Proof.
  intros job. subst job. rewrite process_iso_split. cbn [fst snd].
  destruct (process_iso_finally_quiet cfg iso_path current_index total_count je)
    as (_ & _ & Hf).
  rewrite removed_app, Hf, app_nil_r. unfold process_iso_body.
  destruct (String.eqb _ _); [now left|]. destruct (negb _); [now left|].
  pose proof (retry_loop_removed cfg iso_path
                (is_legacy_version (selected_iso2god cfg)) (attempts je)
                max_retries 0) as Hl.
  destruct (retry_loop _ _ _ _ _ _) as [acts o]. cbn [fst snd] in *.
  rewrite removed_app. exact Hl.
Qed.

Lemma timeout_seconds_disabled cfg :
  (forall minutes, process_timeout cfg = Some minutes -> (minutes <= 0)%Q) ->
  timeout_seconds cfg = None.
Proof.
  intros H. unfold timeout_seconds.
  destruct (process_timeout cfg) as [m|]; [|reflexivity].
  now rewrite (Qlt_bool_false 0 m (H m eq_refl)).
Qed.

Lemma attempt_no_timeout cfg p legacy k e :
  timeout_seconds cfg = None ->
  ~ In Terminate (fst (attempt cfg p legacy k e))
  /\ ~ In Kill (fst (attempt cfg p legacy k e))
  /\ snd (attempt cfg p legacy k e) <> Return TimedOut.
Proof.
  intros Ht. unfold attempt, prepend, attempt_start, on_permission_error, on_success.
  rewrite Ht. cbn [timed_out].
  repeat case_match; cbn [fst snd]; rewrite ?in_app_iff; simpl;
    rewrite ?in_app_iff; simpl; (split; [|split]); try discriminate;
    intuition discriminate.
Qed.

Lemma retry_loop_snd cfg p legacy env (bad : outcome) :
  bad <> LoopExhausted ->
  (forall k, snd (attempt cfg p legacy k (env k)) <> Return bad) ->
  forall n k0, snd (retry_loop n cfg p legacy k0 env) <> bad.
Proof.
  intros Hb Ha. induction n as [|n IH]; intros k0; [simpl; congruence|].
  rewrite retry_loop_S. specialize (Ha k0).
  destruct (attempt cfg p legacy k0 (env k0)) as [acts [|o]]; cbn [snd] in *.
  - specialize (IH (S k0)).
    destruct (retry_loop n cfg p legacy (S k0) env) as [more o]. exact IH.
  - congruence.
Qed.

(** X5: with the timeout switched off (the entry is 0, negative or not a
    number) a job is never terminated or killed and never ends as timed
    out, however long the tool runs. *)
Theorem no_timeout_no_kill cfg iso_path current_index total_count je :
  (forall minutes, process_timeout cfg = Some minutes -> (minutes <= 0)%Q) ->
  let job := process_iso cfg iso_path current_index total_count je in
  ~ In Terminate (fst job) /\ ~ In Kill (fst job) /\ snd job <> TimedOut.
Proof.
  intros Hoff job. apply timeout_seconds_disabled in Hoff.
  split; [|split].
  - intros H. apply process_iso_in in H as [H|[j H]].
    + simpl in H. intuition discriminate.
    + now apply (attempt_no_timeout cfg iso_path _ j (attempts je j) Hoff) in H.
  - intros H. apply process_iso_in in H as [H|[j H]].
    + simpl in H. intuition discriminate.
    + now apply (attempt_no_timeout cfg iso_path _ j (attempts je j) Hoff) in H.
  - subst job. rewrite process_iso_split. cbn [snd]. unfold process_iso_body.
    destruct (String.eqb _ _); [discriminate|]. destruct (negb _); [discriminate|].
    pose proof (retry_loop_snd cfg iso_path (is_legacy_version (selected_iso2god cfg))
                  (attempts je) TimedOut ltac:(discriminate)
                  (fun k => proj2 (proj2 (attempt_no_timeout cfg iso_path _ k _ Hoff)))
                  max_retries 0) as Hl.
    destruct (retry_loop _ _ _ _ _ _) as [acts o]. exact Hl.
Qed.

Lemma no_timeout_no_kill_witness :
  let cfg := settings "linux-1.8.1" "4" 0 false in
  let je := job_of (fun _ => attempt_hangs 1000000 true) in
  process_timeout cfg = Some 0%Q
  /\ snd (process_iso cfg "/in/long.iso" 1 1 je) = Converted
  /\ ~ In Terminate (fst (process_iso cfg "/in/long.iso" 1 1 je)).
Proof.
  intros cfg je.
  assert (Hoff : forall minutes, process_timeout cfg = Some minutes -> (minutes <= 0)%Q).
  { intros m [= <-]. apply Qle_refl. }
  destruct (no_timeout_no_kill cfg "/in/long.iso" 1 1 je Hoff) as (Hterm & _ & _).
  split; [reflexivity|]. split; [reflexivity | exact Hterm].
Defined.

(** An attempt that finds the file locked. *)
Lemma attempt_open_locked cfg p legacy k e :
  open_result e = Some PermissionError ->
  attempt cfg p legacy k e
  = if (k <? max_retries - 1)%nat then
      ([OpenCheck p; Status (MsgLockedRetry (k + 1)) Error; Sleep retry_delay], Retry)
    else ([OpenCheck p; Status MsgLockedSkip Error], Return LockedOut).
Proof.
  intros Ho. unfold attempt, prepend, on_permission_error. rewrite Ho.
  now destruct (k <? max_retries - 1)%nat.
Qed.

(** X6: a source file that cannot be opened for reading at any of the
    three tries (PermissionError) is never handed to the tool: the job
    checks the file, sleeps 120 seconds, checks again, sleeps 120
    seconds, checks a third time and skips the file. *)
Theorem locked_file_is_skipped cfg iso_path je :
  selected_iso2god cfg <> "" ->
  binary_exists je = true ->
  (forall k, (k < max_retries)%nat ->
             open_result (attempts je k) = Some PermissionError) ->
  process_iso_body cfg iso_path je
  = ([SetTitle (Py.splitext_root (Py.basename iso_path)); Status MsgFound Found;
      OpenCheck iso_path; Status (MsgLockedRetry 1) Error; Sleep 120;
      OpenCheck iso_path; Status (MsgLockedRetry 2) Error; Sleep 120;
      OpenCheck iso_path; Status MsgLockedSkip Error],
     LockedOut).
Proof.
  intros Hsel Hbin Hlock. unfold process_iso_body.
  apply String.eqb_neq in Hsel. rewrite Hsel, Hbin. cbn [negb].
  unfold max_retries. rewrite !retry_loop_S.
  rewrite !attempt_open_locked by (apply Hlock; unfold max_retries; lia).
  reflexivity.
Qed.

Lemma locked_file_is_skipped_witness :
  let cfg := settings "linux-1.8.1" "4" 0 false in
  let je := job_of (fun _ => attempt_locked) in
  snd (process_iso_body cfg "/in/busy.iso" je) = LockedOut
  /\ spawned (fst (process_iso_body cfg "/in/busy.iso" je)) = []
  /\ sleeps (fst (process_iso_body cfg "/in/busy.iso" je)) = [120; 120]%Q.
Proof.
  intros cfg je.
  assert (Hsel : selected_iso2god cfg <> "") by discriminate.
  rewrite (locked_file_is_skipped cfg "/in/busy.iso" je Hsel eq_refl
             (fun k _ => eq_refl)).
  repeat split; reflexivity.
Defined.

Lemma retry_loop_first_return cfg p legacy env k acts o : forall n k0,
  (k0 <= k)%nat -> (k < k0 + n)%nat ->
  (forall j, (k0 <= j)%nat -> (j < k)%nat ->
             snd (attempt cfg p legacy j (env j)) = Retry) ->
  attempt cfg p legacy k (env k) = (acts, Return o) ->
  snd (retry_loop n cfg p legacy k0 env) = o
  /\ sleeps (fst (retry_loop n cfg p legacy k0 env))
     = repeat retry_delay (k - k0) ++ sleeps acts
  /\ (length (spawned (fst (retry_loop n cfg p legacy k0 env)))
      <= (k - k0) + length (spawned acts))%nat.
Proof.
  induction n as [|n IH]; intros k0 Hle Hlt Hretry Hret; [lia|].
  rewrite retry_loop_S.
  destruct (Nat.eq_dec k0 k) as [->|Hne].
  - rewrite Hret. rewrite Nat.sub_diag. cbn [fst snd repeat app]. auto.
  - specialize (Hretry k0 (Nat.le_refl _) ltac:(lia)) as Hr.
    destruct (attempt_budget cfg p legacy k0 (env k0)) as (Hsp & Hsl & _).
    destruct (attempt cfg p legacy k0 (env k0)) as [acts0 v].
    cbn [fst snd] in *. subst v.
    destruct (IH (S k0)) as (Ho & Hs & Hc); [lia | lia | | exact Hret |].
    { intros j Hj1 Hj2. apply Hretry; lia. }
    destruct (retry_loop n cfg p legacy (S k0) env) as [more o'].
    cbn [fst snd] in *.
    rewrite sleeps_app, spawned_app, length_app, Hs, (Hsl eq_refl).
    replace (k - k0)%nat with (S (k - S k0)) by lia.
    split; [exact Ho|]. split; [reflexivity | lia].
Qed.

(** X7: the outcome of a job is the outcome of the first attempt that
    does not ask for a retry; before it the job slept the 120 second
    delay once per earlier attempt, and nothing is attempted after it. So
    an unexpected exception while the file is opened or the tool is
    started ends the job at once, whatever attempts are left. *)
Theorem first_return_decides cfg iso_path je k acts o :
  selected_iso2god cfg <> "" ->
  binary_exists je = true ->
  (k < max_retries)%nat ->
  let legacy_mode := is_legacy_version (selected_iso2god cfg) in
  (forall j, (j < k)%nat ->
     snd (attempt cfg iso_path legacy_mode j (attempts je j)) = Retry) ->
  attempt cfg iso_path legacy_mode k (attempts je k) = (acts, Return o) ->
  snd (process_iso_body cfg iso_path je) = o
  /\ sleeps (fst (process_iso_body cfg iso_path je))
     = repeat retry_delay k ++ sleeps acts
  /\ (length (spawned (fst (process_iso_body cfg iso_path je))) <= S k)%nat
  /\ (open_result (attempts je k) = Some OtherException
      \/ (open_result (attempts je k) = None
          /\ spawn_result (attempts je k) = Some OtherException) ->
      o = UnexpectedError /\ sleeps acts = []).
Proof.
  intros Hsel Hbin Hk legacy_mode Hretry Hret.
  destruct (retry_loop_first_return cfg iso_path legacy_mode (attempts je) k acts o
              max_retries 0 ltac:(lia) ltac:(lia)
              ltac:(intros; apply Hretry; lia) Hret) as (Ho & Hs & Hc).
  rewrite Nat.sub_0_r in Hs, Hc.
  destruct (attempt_budget cfg iso_path legacy_mode k (attempts je k)) as (Hsp & _).
  rewrite Hret in Hsp. cbn [fst] in Hsp.
  unfold process_iso_body. apply String.eqb_neq in Hsel.
  rewrite Hsel, Hbin. cbn [negb]. fold legacy_mode.
  destruct (retry_loop max_retries _ _ _ _ _) as [tr o']. cbn [fst snd] in *.
  rewrite sleeps_app, spawned_app. cbn [sleeps spawned flat_map app length].
  split; [exact Ho|]. split; [exact Hs|]. split; [lia|].
  intros Hexn. revert Hret. unfold attempt, attempt_start.
  destruct Hexn as [->|[-> ->]].
  - intros [= <- <-]. split; reflexivity.
  - intros [= <- <-]. split; [reflexivity|].
    destruct (process_timeout cfg); reflexivity.
Qed.

Lemma first_return_decides_witness :
  let cfg := settings "linux-1.8.1" "4" 0 false in
  let broken := {| open_result := None; spawn_result := Some OtherException;
                   stdout_lines := []; stderr_lines := []; polls := [];
                   alive_after_terminate := false; return_code := 0;
                   still_processing := true; remove_result := None |} in
  let je := job_of (fun k => match k with O => attempt_exits [] 1 | _ => broken end) in
  snd (process_iso_body cfg "/in/a.iso" je) = UnexpectedError
  /\ sleeps (fst (process_iso_body cfg "/in/a.iso" je)) = [120%Q].
Proof.
  intros cfg broken je.
  assert (Hsel : selected_iso2god cfg <> "") by discriminate.
  assert (Hk : (1 < max_retries)%nat) by (unfold max_retries; lia).
  assert (Hretry : forall j, (j < 1)%nat ->
            snd (attempt cfg "/in/a.iso" (is_legacy_version (selected_iso2god cfg))
                   j (attempts je j)) = Retry).
  { intros j Hj. assert (j = 0)%nat as -> by lia. reflexivity. }
  destruct (first_return_decides cfg "/in/a.iso" je 1 _ _ Hsel eq_refl Hk Hretry eq_refl)
    as (Ho & Hs & _).
  split; [exact Ho | exact Hs].
Defined.

(** * The output readers *)

Lemma lock_line_empty : lock_line "" = false.
Proof. reflexivity. Qed.

(** X8: the reader of the output stream hands every line that is not
    blank to the status sink, stripped and in order, drops the blank
    ones, never stops before the end of the stream and never sets the
    legacy marker, in legacy mode or not. *)
Theorem stdout_reader_forwards_all legacy_mode pipe :
  read_output legacy_mode false pipe = (false, stripped_lines pipe, false).
Proof.
  unfold stripped_lines. induction pipe as [|raw rest IH]; [reflexivity|].
  cbn [read_output map List.filter].
  destruct (String.eqb (Py.strip raw) "") eqn:E; cbn [negb andb]; [exact IH|].
  rewrite IH. reflexivity.
Qed.

Lemma stderr_reader_clean legacy_mode pipe :
  forallb (fun l => negb (lock_line l)) (stripped_lines pipe) = true ->
  read_output legacy_mode true pipe
  = (legacy_mode
     && existsb (Py.contains "unexpected argument '-j' found") (stripped_lines pipe),
     stripped_lines pipe, false).
Proof.
  unfold stripped_lines. induction pipe as [|raw rest IH]; intros Hclean.
  - now rewrite andb_false_r.
  - cbn [read_output map List.filter] in *.
    destruct (String.eqb (Py.strip raw) "") eqn:E; cbn [negb] in *; [auto|].
    cbn [forallb] in Hclean. apply andb_true_iff in Hclean as [Hl Hclean].
    apply negb_true_iff in Hl. unfold lock_line in Hl.
    cbn [andb]. rewrite Hl, (IH Hclean). cbn [existsb].
    destruct legacy_mode; reflexivity.
Qed.

(** X9: the reader of the error stream stops at the first line that
    reports a locked file: the lines before it are handed on (stripped,
    blank ones dropped); the locked-file line itself is still tested for
    the legacy marker, which comes before the raise, but is not handed
    on; everything after it is neither handed on nor inspected, so a
    legacy marker that comes later is not seen. Without such a line every
    line is handed on and the marker is seen exactly in legacy mode when
    some line holds it. *)
Theorem stderr_reader_stops_at_lock legacy_mode pre line post :
  forallb (fun l => negb (lock_line l)) (stripped_lines pre) = true ->
  lock_line (Py.strip line) = true ->
  let marker := Py.contains "unexpected argument '-j' found" in
  read_output legacy_mode true (pre ++ line :: post)
  = (legacy_mode && existsb marker (stripped_lines pre ++ [Py.strip line]),
     stripped_lines pre, true)
  /\ read_output legacy_mode true pre
     = (legacy_mode && existsb marker (stripped_lines pre), stripped_lines pre, false).
Proof.
  intros Hclean Hlock marker. split; [|now apply stderr_reader_clean].
  unfold stripped_lines in *. induction pre as [|raw rest IH].
  - cbn [app read_output map List.filter].
    destruct (String.eqb (Py.strip line) "") eqn:E.
    + apply String.eqb_eq in E. rewrite E, lock_line_empty in Hlock. discriminate.
    + unfold lock_line in Hlock. cbn [andb]. rewrite Hlock. cbn [existsb].
      unfold marker. now rewrite orb_false_r.
  - cbn [app read_output map List.filter] in *.
    destruct (String.eqb (Py.strip raw) "") eqn:E; cbn [negb] in *; [auto|].
    cbn [forallb] in Hclean. apply andb_true_iff in Hclean as [Hl Hclean].
    apply negb_true_iff in Hl. unfold lock_line in Hl.
    cbn [andb]. rewrite Hl, (IH Hclean). cbn [existsb app].
    destruct legacy_mode; reflexivity.
Qed.

Lemma stderr_reader_stops_at_lock_witness :
  read_output true true
    ["  warming up "; "";
     "error: The process cannot access the file because it is being used by another process.";
     "error: unexpected argument '-j' found"]
  = (false, ["warming up"], true).
Proof.
  exact (proj1 (stderr_reader_stops_at_lock true ["  warming up "; ""]
    "error: The process cannot access the file because it is being used by another process."
    ["error: unexpected argument '-j' found"] eq_refl eq_refl)).
Defined.

(** * Further properties of the watcher *)

Lemma on_created_watcher ev now s : watcher (on_created ev now s) = watcher s.
Proof.
  unfold on_created. repeat case_match; reflexivity.
Qed.

Lemma on_created_extensions ev now s :
  extensions (handler (on_created ev now s)) = extensions (handler s).
Proof.
  unfold on_created. repeat case_match; reflexivity.
Qed.

Lemma on_created_queue ev now s :
  iso_queue (on_created ev now s) = iso_queue s
  \/ (iso_queue (on_created ev now s) = iso_queue s ++ [src_path ev]
      /\ watched_event (handler s) ev = true).
Proof.
  unfold on_created. destruct (watched_event _ _); [|now left].
  repeat case_match; cbn; auto.
Qed.

Lemma current_files_cons dir e l :
  current_files dir (e :: l)
  = (if is_iso_name (fst e) then {[Py.path_join dir (fst e)]} else ∅)
    ∪ current_files dir l.
Proof.
  unfold current_files, is_iso_name. cbn [List.filter].
  destruct (Py.endswith _ _); cbn [map list_to_set].
  - reflexivity.
  - apply set_eq. intros x. rewrite elem_of_union, elem_of_empty. tauto.
Qed.

Lemma check_entry_watcher s e :
  path (watcher (check_entry s e)) = path (watcher s)
  /\ dom (_last_check (watcher (check_entry s e)))
     = dom (_last_check (watcher s))
       ∪ (if is_iso_name (fst e) then {[Py.path_join (path (watcher s)) (fst e)]}
          else ∅).
Proof.
  unfold check_entry, is_iso_name. destruct e as [file now]. cbn [fst].
  destruct (Py.endswith _ _).
  - destruct (_last_check (watcher s) !! Py.path_join (path (watcher s)) file)
      as [t|] eqn:E.
    + split; [reflexivity|]. apply set_eq. intros x.
      rewrite elem_of_union, elem_of_singleton. split; [tauto|].
      intros [H| ->]; [exact H|]. apply elem_of_dom. eauto.
    + rewrite on_created_watcher. cbn. split; [reflexivity|].
      rewrite dom_insert_L. apply set_eq. intros x.
      rewrite !elem_of_union. tauto.
  - split; [reflexivity|]. apply set_eq. intros x.
    rewrite elem_of_union, elem_of_empty. tauto.
Qed.

Lemma fold_check_entry_watcher l : forall s,
  path (watcher (fold_left check_entry l s)) = path (watcher s)
  /\ dom (_last_check (watcher (fold_left check_entry l s)))
     = dom (_last_check (watcher s)) ∪ current_files (path (watcher s)) l.
Proof.
  induction l as [|e l IH]; intros s.
  - split; [reflexivity|]. apply set_eq. intros x. unfold current_files. cbn.
    rewrite elem_of_union, elem_of_empty. tauto.
  - cbn [fold_left]. destruct (IH (check_entry s e)) as [Hp Hd].
    destruct (check_entry_watcher s e) as [Hp' Hd'].
    rewrite Hp, Hd, Hp', Hd', current_files_cons. split; [reflexivity|].
    apply set_eq. intros x. rewrite !elem_of_union. tauto.
Qed.

(** X10: after a poll that could list the directory, the watcher tracks
    exactly the paths of the listed names that end in ".iso" (in any
    letter case): names that vanished are forgotten, new ones are
    remembered, whatever was tracked before. *)
Theorem poll_tracks_listing l s :
  let s' := check_directory (Some l) s in
  path (watcher s') = path (watcher s)
  /\ dom (_last_check (watcher s')) = current_files (path (watcher s)) l.
Proof.
  intros s'. subst s'. unfold check_directory.
  destruct (fold_check_entry_watcher l s) as [Hp Hd].
  cbn [watcher path _last_check set_watcher]. split; [exact Hp|].
  rewrite Hp. apply dom_filter_L. intros i. split.
  - intros Hi.
    assert (Hin : i ∈ dom (_last_check (watcher (fold_left check_entry l s)))).
    { rewrite Hd. now apply elem_of_union_r. }
    apply elem_of_dom in Hin as [x Hx]. exists x. split; [exact Hx | exact Hi].
  - intros (x & _ & Hi). exact Hi.
Qed.

Lemma on_created_origin ev now s :
  (iso_queue (on_created ev now s) = iso_queue s
   /\ processing (handler (on_created ev now s)) = processing (handler s))
  \/ (iso_queue (on_created ev now s) = iso_queue s ++ [src_path ev]
      /\ processing (handler (on_created ev now s))
         = {[src_path ev]} ∪ processing (handler s)
      /\ src_path ev ∉ processing (handler s)).
Proof.
  unfold on_created. destruct (watched_event _ _); [|now left].
  destruct (debounced _ _ _); [now left|].
  cbn [set_last_event_time processing].
  destruct (decide (src_path ev ∈ processing (handler s))) as [Hin|Hout]; cbn; auto.
Qed.

(** One listed name: nothing is queued, or the name ends in ".iso", its
    path was not tracked and not in flight, and the path is queued last. *)
Lemma check_entry_origin s e :
  let fp := Py.path_join (path (watcher s)) (fst e) in
  (iso_queue (check_entry s e) = iso_queue s
   /\ processing (handler (check_entry s e)) = processing (handler s))
  \/ (is_iso_name (fst e) = true
      /\ _last_check (watcher s) !! fp = None
      /\ (fp ∉ processing (handler s))
      /\ iso_queue (check_entry s e) = iso_queue s ++ [fp]
      /\ processing (handler (check_entry s e)) = {[fp]} ∪ processing (handler s)).
Proof.
  intros fp. subst fp. unfold check_entry, is_iso_name.
  destruct e as [file now]. cbn [fst].
  destruct (Py.endswith _ _); [|now left].
  destruct (_last_check (watcher s) !! Py.path_join (path (watcher s)) file)
    as [t|] eqn:E; [now left|].
  match goal with |- context [on_created ?ev now ?s1] =>
    destruct (on_created_origin ev now s1) as [[Hq Hp]|(Hq & Hp & Hout)] end.
  - left. rewrite Hq, Hp. split; reflexivity.
  - right. rewrite Hq, Hp. cbn in *. auto 10.
Qed.

Lemma fold_check_entry_tracked p t l : forall s,
  _last_check (watcher s) !! p = Some t ->
  _last_check (watcher (fold_left check_entry l s)) !! p = Some t
  /\ count_occ string_dec (iso_queue (fold_left check_entry l s)) p
     = count_occ string_dec (iso_queue s) p.
Proof.
  induction l as [|e l IH]; intros s Ht; [auto|].
  cbn [fold_left].
  assert (Ht' : _last_check (watcher (check_entry s e)) !! p = Some t).
  { unfold check_entry. destruct e as [file now].
    destruct (Py.endswith _ _); [|exact Ht].
    destruct (_last_check (watcher s) !! Py.path_join (path (watcher s)) file)
      as [t'|] eqn:E; [exact Ht|].
    rewrite on_created_watcher. cbn. rewrite lookup_insert_ne; [exact Ht|].
    intros Heq. rewrite Heq in E. congruence. }
  destruct (IH _ Ht') as [H1 H2]. split; [exact H1|]. rewrite H2.
  destruct (check_entry_origin s e) as [[Hq _]|(_ & Hnone & _ & Hq & _)].
  - now rewrite Hq.
  - rewrite Hq, count_occ_app. cbn [count_occ].
    destruct (string_dec _ p) as [Heq|_]; [|lia].
    rewrite Heq in Hnone. congruence.
Qed.

(** X11: a path the watcher already tracks is not queued again by a poll
    that still lists it, and stays tracked with the time of its first
    sighting. So a file that stays in the directory after its job (a
    failed conversion, a kept source) is not picked up again until it has
    been missing from one poll. *)
Theorem tracked_path_not_requeued p t l s :
  _last_check (watcher s) !! p = Some t ->
  p ∈ current_files (path (watcher s)) l ->
  let s' := check_directory (Some l) s in
  _last_check (watcher s') !! p = Some t
  /\ count_occ string_dec (iso_queue s') p = count_occ string_dec (iso_queue s) p.
Proof.
  intros Ht Hin s'. subst s'. unfold check_directory.
  destruct (fold_check_entry_tracked p t l s Ht) as [H1 H2].
  destruct (fold_check_entry_watcher l s) as [Hp _].
  cbn [watcher _last_check set_watcher iso_queue]. split; [|exact H2].
  apply map_lookup_filter_Some. split; [exact H1|]. cbn. now rewrite Hp.
Qed.

Lemma tracked_path_not_requeued_witness :
  let cfg := settings "linux-1.8.1" "4" 0 false in
  let s0 := start_watching "/in" (Some 2%Q) initial_system in
  let s1 := check_directory (Some [("game2.iso", 10%Q)]) s0 in
  let s2 := fst (process_queue_turn cfg (job_of (fun _ => attempt_exits [] 1)) s1) in
  let s3 := check_directory (Some [("game2.iso", 500%Q)]) s2 in
  processing (handler s2) = ∅
  /\ _last_check (watcher s3) !! "/in/game2.iso" = Some 10%Q
  /\ iso_queue s3 = [].
Proof.
  intros cfg s0 s1 s2 s3.
  assert (Ht : _last_check (watcher s2) !! "/in/game2.iso" = Some 10%Q)
    by (vm_compute; reflexivity).
  assert (Hin : "/in/game2.iso"
                ∈ current_files (path (watcher s2)) [("game2.iso", 500%Q)]).
  { apply (bool_decide_unpack _). vm_compute. exact I. }
  destruct (tracked_path_not_requeued _ _ _ s2 Ht Hin) as [Hk _].
  split; [vm_compute; reflexivity|]. split; [exact Hk | vm_compute; reflexivity].
Defined.

Lemma fold_check_entry_origin l : forall s p,
  p ∈ iso_queue (fold_left check_entry l s) ->
  p ∈ iso_queue s
  \/ exists file, file ∈ map fst l
       /\ is_iso_name file = true
       /\ p = Py.path_join (path (watcher s)) file
       /\ _last_check (watcher s) !! p = None
       /\ p ∉ processing (handler s).
Proof.
  induction l as [|e l IH]; intros s p Hp; [now left|].
  cbn [fold_left] in Hp. apply IH in Hp.
  destruct (check_entry_watcher s e) as [Hpath Hdom].
  destruct Hp as [Hp|(file & Hf & Hiso & -> & Hnone & Hout)].
  - destruct (check_entry_origin s e) as [[Hq _]|(Hiso & Hnone & Hout & Hq & _)].
    + left. now rewrite <- Hq.
    + rewrite Hq in Hp. apply elem_of_app in Hp as [Hp|Hp]; [now left|].
      apply list_elem_of_singleton in Hp. subst p. right.
      exists (fst e). split; [apply list_elem_of_here|]. auto.
  - right. exists file. rewrite Hpath in *.
    split; [now apply list_elem_of_further|]. split; [exact Hiso|].
    split; [reflexivity|]. split.
    + apply not_elem_of_dom. apply not_elem_of_dom in Hnone.
      rewrite Hdom in Hnone. intros H. apply Hnone. now apply elem_of_union_l.
    + intros H. apply Hout.
      destruct (check_entry_origin s e) as [[_ Hpr]|(_ & _ & _ & _ & Hpr)];
        rewrite Hpr; [exact H | now apply elem_of_union_r].
Qed.

(** X12: a poll queues nothing but paths of listed names that end in
    ".iso" (in any letter case), joined to the watched directory, and only
    paths that were neither tracked nor in flight before the poll; every
    other path in the queue after the poll was there before. *)
Theorem poll_queues_only_new_iso l s p :
  p ∈ iso_queue (check_directory (Some l) s) ->
  p ∈ iso_queue s
  \/ exists file, file ∈ map fst l
       /\ is_iso_name file = true
       /\ p = Py.path_join (path (watcher s)) file
       /\ _last_check (watcher s) !! p = None
       /\ p ∉ processing (handler s).
Proof.
  unfold check_directory. cbn [iso_queue set_watcher]. apply fold_check_entry_origin.
Qed.

Lemma poll_queues_only_new_iso_witness :
  let s0 := start_watching "/in" (Some 2%Q) initial_system in
  let l := [("readme.txt", 10%Q); ("Game7.ISO", 10%Q); ("iso", 10%Q)] in
  iso_queue (check_directory (Some l) s0) = ["/in/Game7.ISO"]
  /\ is_iso_name "Game7.ISO" = true.
Proof.
  intros s0 l.
  assert (Hq : iso_queue (check_directory (Some l) s0) = ["/in/Game7.ISO"])
    by (vm_compute; reflexivity).
  split; [exact Hq|].
  assert (Hin : "/in/Game7.ISO" ∈ iso_queue (check_directory (Some l) s0)).
  { rewrite Hq. apply list_elem_of_here. }
  destruct (poll_queues_only_new_iso l s0 _ Hin) as [Hold|(file & _ & Hiso & Hp & _)].
  - apply elem_of_nil in Hold. contradiction.
  - assert (file = "Game7.ISO") as <-; [|exact Hiso].
    vm_compute in Hp. congruence.
Defined.

Lemma lower_append a b : Py.lower (a +:+ b) = Py.lower a +:+ Py.lower b.
Proof. induction a as [|c a IH]; simpl; [reflexivity | now rewrite IH]. Qed.

Lemma endswith_append a b suf :
  Py.endswith b suf = true -> Py.endswith (a +:+ b) suf = true.
Proof.
  intros H. induction a as [|c a IH]; [exact H|].
  change (Py.endswith (String c (a +:+ b)) suf = true).
  cbn [Py.endswith]. rewrite IH. apply orb_true_r.
Qed.

(** The path of a listed ".iso" name passes the guard of [on_created]. *)
Lemma watched_event_joined h dir file :
  extensions h = [".iso"] -> is_iso_name file = true ->
  watched_event h (FileCreatedEvent (Py.path_join dir file)) = true.
Proof.
  intros Hext Hiso. unfold watched_event, endswith_any, Py.path_join.
  rewrite Hext. cbn [is_directory src_path FileCreatedEvent negb andb existsb].
  rewrite !lower_append, !endswith_append; [reflexivity | exact Hiso].
Qed.

Lemma path_join_inj dir a b : Py.path_join dir a = Py.path_join dir b -> a = b.
Proof.
  unfold Py.path_join. induction dir as [|c dir IH]; intros H.
  - cbn in H. now injection H.
  - cbn in H. injection H as H. auto.
Qed.

Lemma fold_check_entry_fresh dir l : forall s,
  path (watcher s) = dir ->
  extensions (handler s) = [".iso"] ->
  NoDup (map fst l) ->
  (forall file, file ∈ map fst l ->
     _last_check (watcher s) !! Py.path_join dir file = None
     /\ last_event_time (handler s) !! Py.path_join dir file = None
     /\ Py.path_join dir file ∉ processing (handler s)) ->
  iso_queue (fold_left check_entry l s)
  = iso_queue s ++ map (Py.path_join dir) (List.filter is_iso_name (map fst l)).
Proof.
  induction l as [|[file now] l IH]; intros s Hdir Hext Hnd Hfresh.
  - cbn. now rewrite app_nil_r.
  - cbn [map fst] in Hnd. apply NoDup_cons in Hnd as [Hnotin Hnd].
    destruct (Hfresh file (list_elem_of_here _ _)) as (Hlc & Hle & Hpr).
    cbn [fold_left map fst List.filter].
    destruct (is_iso_name file) eqn:Hiso.
    + assert (Hce : check_entry s (file, now)
                    = on_created (FileCreatedEvent (Py.path_join dir file)) now
                        (set_watcher {| path := dir;
                           _last_check := <[Py.path_join dir file := now]>
                                            (_last_check (watcher s)) |} s)).
      { unfold check_entry. unfold is_iso_name in Hiso. now rewrite Hiso, Hdir, Hlc. }
      rewrite Hce. clear Hce.
      set (s1 := set_watcher _ s).
      assert (Hoc : on_created (FileCreatedEvent (Py.path_join dir file)) now s1
                    = set_handler
                        (set_processing ({[Py.path_join dir file]} ∪ processing (handler s))
                           (set_last_event_time
                              (<[Py.path_join dir file := now]> (last_event_time (handler s)))
                              (handler s)))
                        (set_queue (iso_queue s ++ [Py.path_join dir file]) s1)).
      { unfold on_created. cbn [handler s1 set_watcher].
        rewrite (watched_event_joined _ _ _ Hext Hiso).
        unfold debounced. cbn [src_path FileCreatedEvent]. rewrite Hle.
        cbn [set_last_event_time processing].
        destruct (decide (Py.path_join dir file ∈ processing (handler s)));
          [contradiction | reflexivity]. }
      rewrite Hoc. rewrite IH; [| reflexivity | exact Hext | exact Hnd |].
      * cbn [iso_queue set_handler set_queue map]. now rewrite <- app_assoc.
      * intros f Hf.
        assert (Hne : Py.path_join dir file <> Py.path_join dir f).
        { intros Heq%path_join_inj. subst f. contradiction. }
        destruct (Hfresh f (list_elem_of_further _ _ _ Hf)) as (H1 & H2 & H3).
        cbn. rewrite !lookup_insert_ne by exact Hne. split; [exact H1|].
        split; [exact H2|]. intros [Hx%elem_of_singleton|Hx]%elem_of_union; auto.
    + assert (Hce : check_entry s (file, now) = s).
      { unfold check_entry. unfold is_iso_name in Hiso. now rewrite Hiso. }
      rewrite Hce. apply IH; auto.
      intros f Hf. apply Hfresh. now apply list_elem_of_further.
Qed.

(** X13: the first poll after a start of the watcher queues the path of
    every listed name that ends in ".iso" (in any letter case), in listing
    order, after what the queue already held: files that are in the
    directory when watching starts are converted, and a listed path that
    is still queued from before the start is queued a second time. *)
Theorem first_poll_queues_all watch_dir delay l s :
  NoDup (map fst l) ->
  iso_queue (check_directory (Some l) (start_watching watch_dir delay s))
  = iso_queue s
    ++ map (Py.path_join watch_dir) (List.filter is_iso_name (map fst l)).
Proof.
  intros Hnd. unfold check_directory. cbn [iso_queue set_watcher].
  rewrite (fold_check_entry_fresh watch_dir); auto.
  intros file _. cbn. rewrite !lookup_empty. split; [reflexivity|].
  split; [reflexivity | apply not_elem_of_empty].
Qed.

Lemma first_poll_queues_all_witness :
  let l := [("b.iso", 5%Q); ("notes.txt", 5%Q); ("A.ISO", 5%Q)] in
  iso_queue (check_directory (Some l)
               (start_watching "/in" None (set_queue ["/in/A.ISO"] initial_system)))
  = ["/in/A.ISO"; "/in/b.iso"; "/in/A.ISO"].
Proof.
  intros l.
  assert (Hnd : NoDup (map fst l)).
  { apply NoDup_ListNoDup. repeat constructor; simpl; intuition discriminate. }
  rewrite (first_poll_queues_all "/in" None l _ Hnd). reflexivity.
Defined.

(** * Further properties of the coordinator *)

(** X14: after [stop_watching] the coordinator takes no job: however many
    turns it makes, the queue, the in-flight set and everything else stay
    as they are and nothing is traced. The queue is only paused, not
    emptied. *)
Theorem stopped_coordinator_idles cfg jes s :
  drain cfg jes (stop_watching s) = (stop_watching s, map (fun _ => []) jes)
  /\ iso_queue (stop_watching s) = iso_queue s
  /\ handler (stop_watching s) = handler s.
Proof.
  split; [|split; reflexivity].
  induction jes as [|je jes IH]; [reflexivity|].
  cbn [drain map]. unfold process_queue_turn at 1.
  cbn [is_processing stop_watching set_is_processing]. fold (stop_watching s).
  now rewrite IH.
Qed.

(** * Further properties of the upload *)

Lemma dir_tree_nested_ind (P : dir_tree -> Prop) :
  (forall entries,
      Forall (fun e => match snd e with Some t => P t | None => True end) entries ->
      P (Listing entries)) ->
  forall t, P t.
Proof.
  intros H.
  exact (fix F (t : dir_tree) : P t :=
           match t with
           | Listing entries =>
               H entries
                 ((fix G (l : list (string * option dir_tree))
                     : Forall (fun e => match snd e with
                                        | Some t => P t
                                        | None => True
                                        end) l :=
                     match l with
                     | [] => @List.Forall_nil _ _
                     | (item, Some sub) :: l' =>
                         @List.Forall_cons _ _ (item, Some sub) l' (F sub) (G l')
                     | (item, None) :: l' =>
                         @List.Forall_cons _ _ (item, None) l' I (G l')
                     end) entries)
           end).
Qed.

Lemma and_then_ok a b :
  snd a = false -> and_then a b = (fst a ++ fst b, snd b).
Proof. unfold and_then. now intros ->. Qed.

Lemma remote_run_app a : forall cwd b,
  remote_run cwd (a ++ b)
  = (fst (remote_run (fst (remote_run cwd a)) b),
     snd (remote_run cwd a) ++ snd (remote_run (fst (remote_run cwd a)) b)).
Proof.
  induction a as [|c a IH]; intros cwd b.
  - cbn. now destruct (remote_run cwd b).
  - destruct c; cbn [app remote_run]; try apply IH.
    rewrite IH. destruct (remote_run cwd a). reflexivity.
Qed.

(** X15: when no call fails and no entry is called "..", [upload_folder]
    mirrors the local tree: it ends without exception, every file of the
    tree is stored exactly once, under its own name, from its local path,
    in the remote directory reached by entering the remote root and then
    the directories on the way to the file; and the session ends in the
    remote root, every [cwd] into a subdirectory having been undone by a
    [cwd("..")]. *)
Theorem upload_folder_mirrors raises tree : forall local_dir remote_dir cwd,
  (forall c, raises c = false) ->
  remote_dir <> ".." ->
  proper_names tree = true ->
  snd (upload_folder raises local_dir tree remote_dir) = false
  /\ remote_run cwd (fst (upload_folder raises local_dir tree remote_dir))
     = (remote_dir :: cwd, tree_files (remote_dir :: cwd) local_dir tree).
Proof.
  induction tree as [entries IH] using dir_tree_nested_ind.
  intros local_dir remote_dir cwd Hok Hremote Hproper.
  cbn [upload_folder]. unfold call_swallowed, call. rewrite !Hok.
  rewrite !and_then_ok by reflexivity. cbn [fst snd app remote_run].
  apply String.eqb_neq in Hremote. rewrite Hremote.
  cbn [proper_names] in Hproper. cbn [tree_files].
  revert Hproper. generalize (remote_dir :: cwd) as here.
  induction entries as [|[item [sub|]] l IHl]; intros here Hproper.
  - split; reflexivity.
  - apply Forall_cons in IH as [IHsub IH]. cbn [snd] in IHsub.
    apply andb_true_iff in Hproper as [Hproper Hl].
    apply andb_true_iff in Hproper as [Hitem Hsub].
    apply negb_true_iff in Hitem.
    destruct (IHsub (Py.path_join local_dir item) item here Hok
                ltac:(now apply String.eqb_neq) Hsub) as [Hs Hr].
    destruct (IHl IH here Hl) as [Hs' Hr'].
    rewrite and_then_ok by exact Hs. rewrite ?Hok.
    rewrite and_then_ok by reflexivity. cbn [fst snd]. split; [exact Hs'|].
    rewrite remote_run_app, Hr. cbn [fst snd app remote_run].
    change (String.eqb ".." "..") with true. cbn [tl]. now rewrite Hr'.
  - apply Forall_cons in IH as [_ IH].
    apply andb_true_iff in Hproper as [_ Hl].
    destruct (IHl IH here Hl) as [Hs' Hr'].
    rewrite ?Hok. rewrite and_then_ok by reflexivity. cbn [fst snd]. split; [exact Hs'|].
    cbn [app remote_run]. now rewrite Hr'.
Qed.

Lemma upload_folder_mirrors_witness :
  let tree := Listing [("a.bin", None);
                       ("sub", Some (Listing [("b.bin", None)]));
                       ("c.bin", None)] in
  remote_run [] (fst (upload_folder (fun _ => false) "/out" tree "root"))
  = (["root"],
     [(["root"], "a.bin", "/out/a.bin");
      (["sub"; "root"], "b.bin", "/out/sub/b.bin");
      (["root"], "c.bin", "/out/c.bin")]).
Proof.
  intros tree.
  assert (Hroot : "root" <> "..") by discriminate.
  destruct (upload_folder_mirrors (fun _ => false) tree "/out" "root" []
              (fun _ => eq_refl) Hroot eq_refl) as [_ Hrun].
  rewrite Hrun. reflexivity.
Defined.

Lemma stops_call raises c :
  propagating c = true -> stops_at_first_error raises (call raises c).
Proof.
  intros Hc. unfold stops_at_first_error, call, all_went_well. cbn [fst snd]. split.
  - intros Hr. constructor; [auto | constructor].
  - intros Hr. exists [], c. repeat split; auto.
Qed.

Lemma stops_quiet raises c :
  propagating c = false -> stops_at_first_error raises ([c], false).
Proof.
  intros Hc. unfold stops_at_first_error, all_went_well. cbn [fst snd]. split.
  - intros _. constructor; [congruence | constructor].
  - discriminate.
Qed.

Lemma stops_and_then raises a b :
  stops_at_first_error raises a -> stops_at_first_error raises b ->
  stops_at_first_error raises (and_then a b).
Proof.
  intros [Ha1 Ha2] [Hb1 Hb2]. unfold and_then.
  destruct (snd a) eqn:Ea.
  { split; [congruence | intros _; now apply Ha2]. }
  unfold stops_at_first_error, all_went_well in *. cbn [fst snd]. split.
  - intros Hb. apply Forall_app. auto.
  - intros Hb. destruct (Hb2 Hb) as (before & c & Hf & Hp & Hr & Hw).
    exists (fst a ++ before), c. rewrite Hf, app_assoc. repeat split; auto.
    apply Forall_app. auto.
Qed.

Lemma upload_folder_stops raises tree : forall local_dir remote_dir,
  stops_at_first_error raises (upload_folder raises local_dir tree remote_dir).
Proof.
  induction tree as [entries IH] using dir_tree_nested_ind.
  intros local_dir remote_dir. cbn [upload_folder].
  apply stops_and_then; [now apply stops_quiet|].
  apply stops_and_then; [now apply stops_call|].
  induction entries as [|[item [sub|]] l IHl].
  - now apply stops_quiet.
  - apply Forall_cons in IH as [IHsub IH]. cbn [snd] in IHsub.
    apply stops_and_then; [apply IHsub|].
    apply stops_and_then; [now apply stops_call | now apply IHl].
  - apply Forall_cons in IH as [_ IH].
    apply stops_and_then; [now apply stops_call | now apply IHl].
Qed.

(** X16: an upload stops at the first call that fails, [mkd] apart: when
    [send_over_ftp] ends in an exception, either the port entry is not a
    number and no call was made at all, or the last call made is the one
    that failed and every call before it went well; when it ends well,
    every call went well. A failing [mkd] never stops it. *)
Theorem upload_stops_at_first_error raises fs output_dir tree :
  let r := send_over_ftp raises fs output_dir tree in
  (fst r = [] /\ snd r = true
   /\ String.eqb (ftp_port fs) "Port (default: 21)" = false
   /\ int_of_entry (ftp_port fs) = None)
  \/ (stops_at_first_error raises r /\ fst r <> []
      /\ exists port, hd_error (fst r) = Some (Connect "192.168.1.28" port)).
Proof.
  intros r. subst r. unfold send_over_ftp.
  destruct (String.eqb (ftp_port fs) "Port (default: 21)") eqn:Eport.
  - right. split; [|split].
    + repeat (apply stops_and_then; [now apply stops_call|]).
      apply upload_folder_stops.
    + unfold and_then, call. cbn [fst snd]. destruct (raises _); discriminate.
    + exists 21%Z. unfold and_then, call. cbn [fst snd].
      destruct (raises _); reflexivity.
  - destruct (int_of_entry (ftp_port fs)) as [port|] eqn:Eint.
    + right. split; [|split].
      * repeat (apply stops_and_then; [now apply stops_call|]).
        apply upload_folder_stops.
      * unfold and_then, call. cbn [fst snd]. destruct (raises _); discriminate.
      * exists port. unfold and_then, call. cbn [fst snd].
        destruct (raises _); reflexivity.
    + left. auto.
Qed.

(** * Saved settings *)

Module SavedSettingsFacts.
Import SavedSettings.

Lemma saved_covers_defaults e k :
  saved e !! k = None -> DEFAULT_CONFIG !! k = None.
Proof.
  unfold saved, DEFAULT_CONFIG.
  repeat (rewrite (lookup_insert (M := gmap string)); case_decide; [discriminate|]).
  intros _.
  repeat (rewrite (lookup_insert (M := gmap string)); case_decide; [congruence|]).
  reflexivity.
Qed.

(** X17: settings that were saved are loaded back unchanged: the
    dictionary [load_config] returns for the file [save_config] wrote is
    exactly the saved one, with no default in place of a saved value (the
    saved dictionary has all fourteen keys of the defaults). For any
    settings file that holds an object, a key of the file keeps the
    file's value, also a key the defaults do not know, and a default key
    the file lacks gets its default. *)
Theorem settings_round_trip status_ready e f :
  load_config status_ready (save_config true e f) = Some (saved e)
  /\ (forall d k v, d !! k = Some v ->
        exists c, load_config status_ready (Object d) = Some c /\ c !! k = Some v)
  /\ (forall d k, d !! k = None ->
        exists c, load_config status_ready (Object d) = Some c
                  /\ c !! k = DEFAULT_CONFIG !! k).
Proof.
  split; [|split].
  - unfold load_config, save_config. apply (f_equal Some).
    apply map_eq. intros k. rewrite lookup_union.
    destruct (saved e !! k) as [v|] eqn:E.
    + now destruct (DEFAULT_CONFIG !! k).
    + now rewrite (saved_covers_defaults e k E).
  - intros d k v Hk. eexists. split; [reflexivity|].
    rewrite lookup_union, Hk. now destruct (DEFAULT_CONFIG !! k).
  - intros d k Hk. eexists. split; [reflexivity|].
    rewrite lookup_union, Hk. now destruct (DEFAULT_CONFIG !! k).
Qed.

End SavedSettingsFacts.

(** * The scan for tool binaries *)

Lemma strip_prefix_some p : forall s rest,
  strip_prefix p s = Some rest -> s = p +:+ rest.
Proof.
  induction p as [|a p IH]; intros s rest H.
  - cbn in H. now injection H as ->.
  - destruct s as [|b s]; [discriminate|]. cbn [strip_prefix] in H.
    destruct (Ascii.eqb_spec a b) as [->|]; [|discriminate].
    change (String b s = String b (p +:+ rest)). f_equal. now apply IH.
Qed.

Lemma alnum_not_dash c : is_alnum c = true -> Ascii.eqb c "-" = false.
Proof.
  destruct c as [[] [] [] [] [] [] [] []]; try reflexivity; discriminate.
Qed.

Lemma version_char_not_dash c : is_version_char c = true -> Ascii.eqb c "-" = false.
Proof.
  destruct c as [[] [] [] [] [] [] [] []]; try reflexivity; discriminate.
Qed.

Lemma at_end_no_dash s : at_end s = true -> no_dash s = true.
Proof.
  destruct s as [|c [|d s]]; try discriminate; [reflexivity|].
  cbn. intros H. apply Ascii.eqb_eq in H. now subst c.
Qed.

Lemma alnum_star_end_no_dash s : alnum_star_end s = true -> no_dash s = true.
Proof.
  induction s as [|c s IH]; [reflexivity|].
  cbn [alnum_star_end]. intros [H|H]%orb_true_iff; [now apply at_end_no_dash|].
  apply andb_true_iff in H as [Hc Hs]. cbn [no_dash].
  now rewrite (alnum_not_dash c Hc), (IH Hs).
Qed.

Lemma alnum_plus_end_no_dash s : alnum_plus_end s = true -> no_dash s = true.
Proof.
  destruct s as [|c s]; [reflexivity|]. cbn [alnum_plus_end].
  intros [Hc Hs]%andb_true_iff. cbn [no_dash].
  now rewrite (alnum_not_dash c Hc), (alnum_star_end_no_dash s Hs).
Qed.

Lemma version_tail_no_dash s : version_tail s = true -> no_dash s = true.
Proof.
  induction s as [|c s IH]; [reflexivity|].
  cbn [version_tail]. intros [H|H]%orb_true_iff; [now apply at_end_no_dash|].
  apply orb_true_iff in H as [H|H]; apply andb_true_iff in H as [Hc Hs]; cbn [no_dash].
  - apply Ascii.eqb_eq in Hc. subst c.
    now rewrite (alnum_plus_end_no_dash s Hs).
  - now rewrite (version_char_not_dash c Hc), (IH Hs).
Qed.

Lemma version_and_ext_no_dash s : version_and_ext s = true -> no_dash s = true.
Proof.
  destruct s as [|c s]; [discriminate|]. cbn [version_and_ext].
  intros [Hc Hs]%andb_true_iff. cbn [no_dash].
  now rewrite (version_char_not_dash c Hc), (version_tail_no_dash s Hs).
Qed.

Lemma re_search_version_no_dash s : no_dash s = true -> re_search_version s = None.
Proof.
  induction s as [|c s IH]; [reflexivity|]. cbn [no_dash re_search_version].
  intros [Hc Hs]%andb_true_iff. apply negb_true_iff in Hc. rewrite Hc. auto.
Qed.

(** The search of [is_legacy_version] on a name with one dash: the version
    is looked for right after the dash and nowhere else. *)
Lemma is_legacy_version_at_dash platform rest :
  no_dash platform = true -> no_dash rest = true ->
  is_legacy_version (platform +:+ "-" +:+ rest) = legacy_at rest.
Proof.
  intros Hp Hr. unfold is_legacy_version, legacy_at.
  destruct (match_triple rest) as [v|] eqn:E.
  - now rewrite (re_search_version_format platform rest v Hp E).
  - assert (H : re_search_version (platform +:+ "-" +:+ rest) = None); [|now rewrite H].
    induction platform as [|c p IH].
    + change (re_search_version (String "-" rest) = None).
      cbn [re_search_version]. rewrite Ascii.eqb_refl, E.
      now apply re_search_version_no_dash.
    + cbn [no_dash] in Hp. apply andb_true_iff in Hp as [Hc Hp].
      apply negb_true_iff in Hc.
      change (re_search_version (String c (p +:+ "-" +:+ rest)) = None).
      cbn [re_search_version]. rewrite Hc. auto.
Qed.

Lemma platforms_no_dash platform : In platform platforms -> no_dash platform = true.
Proof.
  intros [<-|[<-|[<-|[]]]]; reflexivity.
Qed.

(** X18: a file name the scan for tool binaries accepts is one of the
    three platform names, a dash, and a rest that holds no further dash;
    whether the job supervisor takes the binary for a legacy version is
    then decided by that rest alone: by the three dotted numbers at its
    very start, compared with (1, 6, 0), and it is not legacy if the rest
    does not start with three dotted numbers (as for a version of two
    numbers). *)
Theorem accepted_binary_version name :
  binary_pattern name = true ->
  exists platform rest,
    In platform platforms
    /\ name = platform +:+ "-" +:+ rest
    /\ no_dash rest = true
    /\ is_legacy_version name = legacy_at rest
    /\ (match_triple rest = None -> is_legacy_version name = false).
Proof.
  unfold binary_pattern. intros H. apply existsb_exists in H as (platform & Hin & H).
  destruct (strip_prefix (platform +:+ "-") name) as [rest|] eqn:E; [|discriminate].
  apply strip_prefix_some in E. apply version_and_ext_no_dash in H.
  assert (Hn : name = platform +:+ "-" +:+ rest).
  { rewrite E. clear. induction platform as [|c p IH]; [reflexivity|].
    change (String c ((p +:+ "-") +:+ rest) = String c (p +:+ "-" +:+ rest)).
    now f_equal. }
  assert (Hl : is_legacy_version name = legacy_at rest).
  { rewrite Hn. apply is_legacy_version_at_dash; auto using platforms_no_dash. }
  exists platform, rest. repeat split; auto.
  intros Hm. rewrite Hl. unfold legacy_at. now rewrite Hm.
Qed.

Lemma accepted_binary_version_witness :
  binary_pattern "linux-1.6.0" = true
  /\ exists platform rest,
    In platform platforms
    /\ "linux-1.6.0" = platform +:+ "-" +:+ rest
    /\ no_dash rest = true
    /\ is_legacy_version "linux-1.6.0" = legacy_at rest
    /\ (match_triple rest = None -> is_legacy_version "linux-1.6.0" = false).
Proof.
  split; [reflexivity | apply (accepted_binary_version "linux-1.6.0"); reflexivity].
Defined.
